(** * The Lithium reduction strategies of Grizzly

    A shallow embedding of [grizzly/reduce/strategies/lithium.py]: the
    chunked progress estimator ([_possible_iters], [_chunk_iters]), the
    file-set scanner ([rescan_files_to_reduce]), the length estimate
    ([__len__]) and the generator [__iter__] of [_LithiumStrategy], together
    with the [Check] variant.

    Python integers are [Z].  The only non-integer numbers of the module
    are the values taken by [chunk_size] after [chunk_size /= 2]; they are
    modelled as exact rationals [Q] (every value the program produces this
    way is a dyadic rational, which a binary float holds exactly). *)

From Stdlib Require Import ZArith QArith Qround Lia.
From stdpp Require Import gmap strings list sorting.

Close Scope Q_scope.
Local Open Scope Z_scope.

(** ** Part 1: the chunked progress estimator *)

Module Estimator.

(** Modelled from the spec: [divide_rounding_up] is imported from
    [lithium.util], which is not under src; the spec calls it
    [ceil(length / chunk_size)].  It is the quotient of the floor division
    plus one when the remainder is not zero. *)
Definition divide_rounding_up (numerator denominator : Q) : Z :=
  let quotient := Qfloor (numerator / denominator) in
  let remainder := (numerator - denominator * inject_Z quotient)%Q in
  quotient + (if Qeq_bool remainder 0 then 0 else 1).

(** The loop [i = 1; while i * 2 < n: i *= 2] behind
    [largest_power_of_two_smaller_than]. *)
Fixpoint lp2_while (fuel : nat) (i n : Z) : Z :=
  match fuel with
  | O => i
  | S fuel' => if i * 2 <? n then lp2_while fuel' (i * 2) n else i
  end.

(** Modelled from the spec: [largest_power_of_two_smaller_than] is imported
    from [lithium.util], which is not under src; the spec calls it the
    largest power of two strictly less than [L].  Powers of two start at
    [1], which is also the result when no power of two lies below [n]. *)
Definition largest_power_of_two_smaller_than (n : Z) : Z :=
  lp2_while (Z.to_nat (Z.log2_up n)) 1 n.

(** The loop of [_chunk_iters]:
    [while chunk_size > 1: result += divide_rounding_up(length, chunk_size);
     chunk_size /= 2]. *)
Fixpoint chunk_while (fuel : nat) (length : Z) (chunk_size : Q) (result : Z) : Z :=
  match fuel with
  | O => result
  | S fuel' =>
      if Qlt_le_dec 1 chunk_size
      then chunk_while fuel' length (chunk_size / 2)%Q
             (result + divide_rounding_up (inject_Z length) chunk_size)
      else result
  end.

(** Number of halvings that bring [chunk_size] to [1] or below. *)
Definition halving_fuel (chunk_size : Q) : nat :=
  Z.to_nat (Z.log2_up (Qceiling chunk_size)).

(** [_LithiumStrategy._chunk_iters] *)
Definition _chunk_iters (length chunk_size : Z) : Z :=
  if length =? chunk_size then chunk_size * 3 - 1
  else chunk_while (halving_fuel (inject_Z chunk_size)) length
         (inject_Z chunk_size) (2 * length).

(** [_LithiumStrategy._possible_iters] *)
Definition _possible_iters (length : Z) : Z :=
  let chunk_size := largest_power_of_two_smaller_than length in
  _chunk_iters length (chunk_size * 2) - 1.

(** [CollapseEmptyBraces._possible_iters] *)
Definition _possible_iters_collapse (length : Z) : Z :=
  _possible_iters length * 2.




End Estimator.

Import Estimator.

(** ** Part 2: the data the engine works on *)

(** A path below the test-case root, as the list of its parts; the last part
    is [path.name].  [str(path.relative_to(root))] determines the parts and
    is determined by them, so the parts themselves serve as dictionary key. *)
Definition path : Type := list string.

Definition content : Type := string.
Definition digest : Type := string.

(** One result of [root.glob("**/*")]: a regular file with its bytes, or
    any other kind of entry (a directory). *)
Record entry : Type := Entry {
  e_path : path;
  e_is_file : bool;
  e_data : content;
}.

(** The test-case root, in the order in which [glob] lists it. *)
Definition root : Type := list entry.

(** A whole-set fingerprint: the dictionary built from the tuple that
    [_calculate_testcase_hash] returns. *)
Abbreviation snapshot := (gmap path digest).

Definition name (p : path) : string := default ""%string (last p).

(** [path.name not in {"test_info.json", "prefs.js"}] *)
Definition reserved_name (n : string) : bool :=
  bool_decide (n = "test_info.json"%string) || bool_decide (n = "prefs.js"%string).

Definition read_bytes (r : root) (p : path) : option content :=
  e_data <$> find (fun e => e_is_file e && bool_decide (e_path e = p)) r.

(** [Testcase.dump()]: the file is overwritten, or created. *)
Definition write_file (r : root) (p : path) (data : content) : root :=
  if bool_decide (p ∈ e_path <$> r)
  then (fun e => if bool_decide (e_path e = p) then Entry p true data else e) <$> r
  else r ++ [Entry p true data].

(** The order of [pathlib] paths: lexicographic on the parts. *)
Fixpoint path_leb (a b : path) : bool :=
  match a, b with
  | [], _ => true
  | _ :: _, [] => false
  | x :: a', y :: b' =>
      match String.compare x y with
      | Lt => true
      | Gt => false
      | Eq => path_leb a' b'
      end
  end.

Definition path_le (a b : path) : Prop := path_leb a b = true.

#[global] Instance path_le_dec a b : Decision (path_le a b).
Proof. unfold path_le. apply _. Defined.

(** [sorted(...)] on paths *)
Definition sorted (l : list path) : list path := merge_sort path_le l.

(** The collaborators of the engine: the class attributes [testcase_cls]
    and [strategy_cls] that every variant defines, and the helpers of the
    package that the module imports. *)
Class Collaborators : Type := {
  (** [testcase_cls]: [len(test)] after [test.load(path)] *)
  testcase_len : content -> nat;
  (** [strategy_cls().reduce(testcase)]: the state of the reduction
      iterator *)
  reducer : Type;
  reduce : content -> reducer;
  update_tried : gset digest -> reducer -> reducer;
  feedback : bool -> reducer -> reducer;
  (** [next(iter(reducer))]: [None] is [StopIteration] *)
  next_reduction : reducer -> option content * reducer;
  (** [reducer.testcase]: the best test case found *)
  testcase : reducer -> content;
  (** the fingerprint of a file's bytes *)
  fingerprint : content -> digest;
  (** [_contains_dd(path)] on the bytes of the file *)
  _contains_dd : content -> bool;
}.

Inductive exn : Type := KeyError | AssertionError | FileNotFoundError.

Inductive result (A : Type) : Type :=
| Ok (a : A)
| Raised (e : exn).
Arguments Ok {A} a.
Arguments Raised {A} e.

Section Engine.
Context `{C : Collaborators}.

(** The attributes of a [_LithiumStrategy] instance. *)
Record strategy : Type := Strategy {
  _testcase_root : root;
  _all_files : bool;
  _tried : gset snapshot;
  _current_reducer : option reducer;
  _files_to_reduce : list path;
  _possible_iters_remain : gmap path Z;
  _current_feedback : option bool;
  _current_served : option (list path);
  _testcase_root_dirty : bool;
}.

Definition set_testcase_root v (s : strategy) : strategy :=
  Strategy v (_all_files s) (_tried s) (_current_reducer s) (_files_to_reduce s)
    (_possible_iters_remain s) (_current_feedback s) (_current_served s)
    (_testcase_root_dirty s).
Definition set_tried v (s : strategy) : strategy :=
  Strategy (_testcase_root s) (_all_files s) v (_current_reducer s) (_files_to_reduce s)
    (_possible_iters_remain s) (_current_feedback s) (_current_served s)
    (_testcase_root_dirty s).
Definition set_current_reducer v (s : strategy) : strategy :=
  Strategy (_testcase_root s) (_all_files s) (_tried s) v (_files_to_reduce s)
    (_possible_iters_remain s) (_current_feedback s) (_current_served s)
    (_testcase_root_dirty s).
Definition set_files_to_reduce v (s : strategy) : strategy :=
  Strategy (_testcase_root s) (_all_files s) (_tried s) (_current_reducer s) v
    (_possible_iters_remain s) (_current_feedback s) (_current_served s)
    (_testcase_root_dirty s).
Definition set_possible_iters_remain v (s : strategy) : strategy :=
  Strategy (_testcase_root s) (_all_files s) (_tried s) (_current_reducer s)
    (_files_to_reduce s) v (_current_feedback s) (_current_served s)
    (_testcase_root_dirty s).
Definition set_current_feedback v (s : strategy) : strategy :=
  Strategy (_testcase_root s) (_all_files s) (_tried s) (_current_reducer s)
    (_files_to_reduce s) (_possible_iters_remain s) v (_current_served s)
    (_testcase_root_dirty s).
Definition set_current_served v (s : strategy) : strategy :=
  Strategy (_testcase_root s) (_all_files s) (_tried s) (_current_reducer s)
    (_files_to_reduce s) (_possible_iters_remain s) (_current_feedback s) v
    (_testcase_root_dirty s).
Definition set_testcase_root_dirty v (s : strategy) : strategy :=
  Strategy (_testcase_root s) (_all_files s) (_tried s) (_current_reducer s)
    (_files_to_reduce s) (_possible_iters_remain s) (_current_feedback s)
    (_current_served s) v.

(** *** Methods are state transformers that may raise *)

Definition M (A : Type) : Type := strategy -> result A * strategy.

Definition ret {A} (a : A) : M A := fun s => (Ok a, s).
Definition raise {A} (e : exn) : M A := fun s => (Raised e, s).
Definition bind {A B} (m : M A) (f : A -> M B) : M B :=
  fun s => match m s with
           | (Ok a, s') => f a s'
           | (Raised e, s') => (Raised e, s')
           end.
#[global] Instance M_ret : MRet M := @ret.
#[global] Instance M_bind : MBind M := fun A B f m => bind m f.

Definition get : M strategy := fun s => (Ok s, s).
Definition modify (f : strategy -> strategy) : M unit := fun s => (Ok tt, f s).
Definition lift_option {A} (e : exn) (o : option A) : M A :=
  match o with Some a => ret a | None => raise e end.

(** *** The file-set scanner *)

(** The test of [rescan_files_to_reduce] on one result of the glob. *)
Definition reducible (all_files : bool) (e : entry) : bool :=
  e_is_file e && negb (reserved_name (name (e_path e)))
  && (all_files || _contains_dd (e_data e)).

(** [for key in removed: del d[key]] *)
Definition delete_keys (removed : list path) (d : gmap path Z) : gmap path Z :=
  foldr delete d removed.

(** [_LithiumStrategy.rescan_files_to_reduce] *)
Definition rescan_files_to_reduce (s : strategy) : strategy :=
  let files := e_path <$> (filter (fun e => reducible (_all_files s) e = true)
                             (_testcase_root s)) in
  let removed : gset path := dom (_possible_iters_remain s) ∖ list_to_set files in
  set_possible_iters_remain (delete_keys (elements removed) (_possible_iters_remain s))
    (set_files_to_reduce files s).

(** *** Construction *)

(** The loop of [__init__] that fills [_possible_iters_remain]; the
    estimator is a class method, which [CollapseEmptyBraces] overrides. *)
Fixpoint init_possible_iters (possible_iters : Z -> Z) (files : list path) : M unit :=
  match files with
  | [] => ret tt
  | p :: files' =>
      s ← get;
      test ← lift_option FileNotFoundError (read_bytes (_testcase_root s) p);
      modify (fun s => set_possible_iters_remain
                (<[p := possible_iters (Z.of_nat (testcase_len test))]>
                   (_possible_iters_remain s)) s);;
      init_possible_iters possible_iters files'
  end.

(** The attributes as [__init__] sets them up to the first scan: the base
    class stores the test cases under the root and starts with an empty set
    of tried fingerprints. *)
Definition scanned (testcases : root) (all_files : bool) : strategy :=
  rescan_files_to_reduce (Strategy testcases all_files ∅ None [] ∅ None None false).

(** [_LithiumStrategy.__init__] *)
Definition __init__ (possible_iters : Z -> Z) (testcases : root) (all_files : bool)
  : result strategy :=
  let construct : M unit :=
    s ← get;
    init_possible_iters possible_iters (_files_to_reduce s);;
    modify (set_testcase_root_dirty false) in
  match construct (scanned testcases all_files) with
  | (Ok _, s) => Ok s
  | (Raised e, _) => Raised e
  end.

(** [_LithiumStrategy.update] *)
Definition update (success : bool) (served : option (list path)) (s : strategy)
  : strategy :=
  set_current_served served
    (set_current_feedback (Some success)
       (set_current_reducer (feedback success <$> _current_reducer s) s)).

(** [sum(d.values())] *)
Definition sum_values (d : gmap path Z) : Z :=
  map_fold (fun _ v acc => v + acc) 0 d.

(** [_LithiumStrategy.__len__] *)
Definition __len__ (s : strategy) : Z :=
  sum_values (_possible_iters_remain s) + Z.b2z (_testcase_root_dirty s).

(** *** The helpers inherited from [Strategy] *)

(** Modelled from the spec: [Strategy._calculate_testcase_hash] is defined
    in the package's [__init__.py], which is not under src.  A snapshot maps
    the relative path of each reducible file to the fingerprint of its
    current content. *)
Definition _calculate_testcase_hash (s : strategy) : snapshot :=
  list_to_map ((fun e => (e_path e, fingerprint (e_data e))) <$>
                 (filter (fun e => reducible (_all_files s) e = true)
                    (_testcase_root s))).

(** Modelled from the spec: [Strategy.purge_unserved] is defined in the
    package's [__init__.py], which is not under src.  It removes from the
    root every reducible file that is not in the list of served files. *)
Definition purge_unserved (served : list path) (s : strategy) : strategy :=
  set_testcase_root
    (filter (fun e => ¬ (reducible (_all_files s) e = true ∧ e_path e ∉ served))
       (_testcase_root s)) s.

(** *** The generator [__iter__] *)

(** Where the generator is suspended, with the local variables that are
    live there. *)
Inductive gen_state : Type :=
| Created
| AtCandidate (reduce_queue : list path) (file : path) (testcase_length : Z)
    (reduction : content)
| AtFinal
| Closed.

(** What one [next()] on the generator gives the caller. *)
Inductive outcome : Type :=
| Yield (testcases : root)
| StopIteration
| Raise (e : exn).

Definition truthy (o : option bool) : bool := default false o.

(** The loop [for tried in self._tried] that collects [this_tc_tried];
    [tried.pop(key)] raises when the key is missing. *)
Fixpoint seed_tried (file : path) (current_tc_hash_map : snapshot)
    (tried : list snapshot) : option (gset digest) :=
  match tried with
  | [] => Some ∅
  | t :: rest =>
      tc_tried ← t !! file;
      this_tc_tried ← seed_tried file current_tc_hash_map rest;
      Some (if decide (delete file t = current_tc_hash_map)
            then {[tc_tried]} ∪ this_tc_tried else this_tc_tried)
  end.

(** From [lithium_testcase = self.testcase_cls()] to
    [self._current_reducer.update_tried(this_tc_tried)]; the result is
    [testcase_length]. *)
Definition begin_file (file : path) : M Z :=
  s ← get;
  lithium_testcase ← lift_option FileNotFoundError (read_bytes (_testcase_root s) file);
  modify (set_current_reducer (Some (reduce lithium_testcase)));;
  let testcase_length := Z.of_nat (testcase_len lithium_testcase) in
  let hash_map := _calculate_testcase_hash s in
  _ ← lift_option KeyError (hash_map !! file);
  let current_tc_hash_map := delete file hash_map in
  this_tc_tried ← lift_option KeyError
    (seed_tried file current_tc_hash_map (elements (_tried s)));
  modify (fun s => set_current_reducer
            (update_tried this_tc_tried <$> _current_reducer s) s);;
  ret testcase_length.

(** One turn of [for reduction in self._current_reducer]: the iterator is
    the object the attribute holds, so that [update] reaches it. *)
Definition next_candidate : M (option content) :=
  s ← get;
  match _current_reducer s with
  | Some r =>
      let '(reduction, r') := next_reduction r in
      modify (set_current_reducer (Some r'));;
      ret reduction
  | None => ret None
  end.

(** [reduction.dump()], [TestCase.load] and [yield testcases] *)
Definition yield_candidate (reduce_queue : list path) (file : path)
    (testcase_length : Z) (reduction : content) : M (gen_state * outcome) :=
  modify (fun s => set_testcase_root (write_file (_testcase_root s) file reduction) s);;
  s ← get;
  ret (AtCandidate reduce_queue file testcase_length reduction,
       Yield (_testcase_root s)).

(** The [else] of the [for]: [self._current_reducer.testcase.dump()] *)
Definition dump_best (file : path) (s : strategy) : strategy :=
  match _current_reducer s with
  | Some r => set_testcase_root (write_file (_testcase_root s) file (testcase r)) s
  | None => s
  end.

(** [self._current_reducer = None; self._possible_iters_remain.pop(file, None)] *)
Definition end_file (file : path) (s : strategy) : strategy :=
  set_possible_iters_remain (delete file (_possible_iters_remain s))
    (set_current_reducer None s).

(** After the [while]: the final yield when the root is dirty. *)
Definition finish : M (gen_state * outcome) :=
  s ← get;
  if _testcase_root_dirty s
  then ret (AtFinal, Yield (_testcase_root s))
  else modify (set_testcase_root_dirty false);; ret (Closed, StopIteration).

(** The head of the [for] loop, with the rest of the [while] loop as
    continuation. *)
Definition for_reduction (rest : M (gen_state * outcome)) (reduce_queue : list path)
    (file : path) (testcase_length : Z) : M (gen_state * outcome) :=
  reduction ← next_candidate;
  match reduction with
  | Some reduction => yield_candidate reduce_queue file testcase_length reduction
  | None => modify (dump_best file);; modify (end_file file);; rest
  end.

(** [while reduce_queue: file = reduce_queue.pop(0) ...] up to the next
    [yield]. *)
Fixpoint while_reduce_queue (reduce_queue : list path) : M (gen_state * outcome) :=
  match reduce_queue with
  | [] => finish
  | file :: reduce_queue' =>
      testcase_length ← begin_file file;
      for_reduction (while_reduce_queue reduce_queue') reduce_queue' file testcase_length
  end.

(** [self._possible_iters_remain[file] -= amount] *)
Definition decrement (file : path) (amount : Z) : M unit :=
  s ← get;
  v ← lift_option KeyError (_possible_iters_remain s !! file);
  modify (set_possible_iters_remain (<[file := v - amount]> (_possible_iters_remain s))).

(** The branch [if self._current_feedback:]; the result is the new
    [testcase_length]. *)
Definition on_accept (file : path) (testcase_length : Z) (reduction : content) : M Z :=
  modify (set_testcase_root_dirty false);;
  let removed := Z.max 1 (testcase_length - Z.of_nat (testcase_len reduction)) in
  let chunk_size :=
    if 1 <? removed then largest_power_of_two_smaller_than removed * 2 else removed in
  decrement file (_chunk_iters removed chunk_size);;
  ret (Z.of_nat (testcase_len reduction)).

(** The amount that [on_accept] subtracts from the estimate of the file. *)
Definition accepted_amount (testcase_length : Z) (reduction : content) : Z :=
  let removed := Z.max 1 (testcase_length - Z.of_nat (testcase_len reduction)) in
  _chunk_iters removed
    (if 1 <? removed then largest_power_of_two_smaller_than removed * 2 else removed).

(** The state after [on_accept], for a file whose estimate is [v]. *)
Definition accepted_state (file : path) (testcase_length : Z) (reduction : content)
    (v : Z) (s : strategy) : strategy :=
  set_possible_iters_remain
    (<[file := v - accepted_amount testcase_length reduction]> (_possible_iters_remain s))
    (set_testcase_root_dirty false s).

(** The branch [else:] *)
Definition on_reject (file : path) : M unit :=
  modify (fun s => set_tried ({[_calculate_testcase_hash s]} ∪ _tried s) s);;
  decrement file 1.

(** The state after [on_reject], for a file whose estimate is [v]. *)
Definition rejected_state (file : path) (v : Z) (s : strategy) : strategy :=
  set_possible_iters_remain (<[file := v - 1]> (_possible_iters_remain s))
    (set_tried ({[_calculate_testcase_hash s]} ∪ _tried s) s).

(** The body of [if self._current_feedback and self._current_served is not
    None]; the result is the new [reduce_queue] and whether the [for] loop
    is left by [break]. *)
Definition on_served (served : list path) (reduce_queue : list path) (file : path)
  : M (list path * bool) :=
  modify (purge_unserved served);;
  s ← get;
  let num_files_before := length (_files_to_reduce s) in
  modify rescan_files_to_reduce;;
  s ← get;
  let files_to_reduce := _files_to_reduce s in
  let reduce_queue :=
    sorted (filter (fun p => p ∈ files_to_reduce) (remove_dups reduce_queue)) in
  modify (set_testcase_root_dirty
            (bool_decide (length files_to_reduce ≠ num_files_before)));;
  ret (reduce_queue, bool_decide (file ∉ files_to_reduce)).

(** The state in which [on_served] leaves the engine, and the queue it
    returns. *)
Definition served_state (served : list path) (s : strategy) : strategy :=
  let s2 := rescan_files_to_reduce (purge_unserved served s) in
  set_testcase_root_dirty
    (bool_decide (length (_files_to_reduce s2) ≠ length (_files_to_reduce s))) s2.

Definition served_queue (served : list path) (reduce_queue : list path) (s : strategy)
  : list path :=
  sorted (filter (fun p => p ∈ _files_to_reduce (served_state served s))
            (remove_dups reduce_queue)).

(** Resuming after [yield testcases] inside the [for] loop. *)
Definition resume_candidate (reduce_queue : list path) (file : path)
    (testcase_length : Z) (reduction : content) : M (gen_state * outcome) :=
  s ← get;
  testcase_length ←
    (if truthy (_current_feedback s)
     then on_accept file testcase_length reduction
     else on_reject file;; ret testcase_length);
  s ← get;
  '(reduce_queue, break) ←
    match truthy (_current_feedback s), _current_served s with
    | true, Some served => on_served served reduce_queue file
    | _, _ => ret (reduce_queue, false)
    end;
  if break : bool
  then modify (end_file file);; while_reduce_queue reduce_queue
  else for_reduction (while_reduce_queue reduce_queue) reduce_queue file testcase_length.

(** Resuming after the final [yield testcases]. *)
Definition resume_final : M (gen_state * outcome) :=
  s ← get;
  if truthy (_current_feedback s)
  then modify (set_testcase_root_dirty false);; ret (Closed, StopIteration)
  else raise AssertionError.

(** From the first line of [__iter__] to the first [yield]. *)
Definition start : M (gen_state * outcome) :=
  s ← get;
  let reduce_queue := sorted (_files_to_reduce s) in
  modify (set_testcase_root_dirty false);;
  while_reduce_queue reduce_queue.

(** A step of the generator that ends in an exception closes it. *)
Definition run (m : M (gen_state * outcome)) (s : strategy)
  : strategy * gen_state * outcome :=
  match m s with
  | (Ok (g', o), s') => (s', g', o)
  | (Raised e, s') => (s', Closed, Raise e)
  end.

(** [next()] on the generator: it runs to the next [yield], to its end, or
    to an exception. *)
Definition __next__ (g : gen_state) (s : strategy) : strategy * gen_state * outcome :=
  match g with
  | Created => run start s
  | AtCandidate reduce_queue file testcase_length reduction =>
      run (resume_candidate reduce_queue file testcase_length reduction) s
  | AtFinal => run resume_final s
  | Closed => (s, Closed, StopIteration)
  end.

(** *** Invariants of the generator *)

(** What the [while] loop can reach: a candidate of a queued file, with the
    rest of the queue still to do; the final yield; or the end. *)
Definition reached (reduce_queue : list path) (s : strategy)
    (r : result (gen_state * outcome)) (s' : strategy) : Prop :=
  match r with
  | Ok (AtCandidate reduce_queue' file _ reduction, o) =>
      o = Yield (_testcase_root s') /\ file ∈ reduce_queue /\
      (forall p : path, p ∈ reduce_queue' -> p ∈ reduce_queue) /\
      _testcase_root_dirty s' = _testcase_root_dirty s
  | Ok (AtFinal, o) =>
      o = Yield (_testcase_root s') /\ _testcase_root_dirty s = true /\
      _testcase_root_dirty s' = true
  | Ok (Closed, o) =>
      o = StopIteration /\ _testcase_root_dirty s = false /\
      _testcase_root_dirty s' = false
  | Ok (Created, _) => False
  | Raised _ => True
  end.


(** What a step hands to the caller matches where the generator stops. *)
Definition stops_at (g' : gen_state) (o : outcome) (s' : strategy) : Prop :=
  match g' with
  | Created => False
  | AtCandidate _ _ _ _ => o = Yield (_testcase_root s')
  | AtFinal => o = Yield (_testcase_root s') /\ _testcase_root_dirty s' = true
  | Closed => (o = StopIteration /\ _testcase_root_dirty s' = false) \/
              exists e : exn, o = Raise e
  end.

(** *** What a step may touch *)

(** The entries of the root whose path is not in the work set. *)
Definition outside (work : list path) (r : list entry) : list entry :=
  filter (fun e => e_path e ∉ work) r.

(** The files a step of the generator may write to: all files to reduce
    before the first step, the file in work and the queued files later. *)
Definition work_set (g : gen_state) (s : strategy) : list path :=
  match g with
  | Created => _files_to_reduce s
  | AtCandidate reduce_queue file _ _ => file :: reduce_queue
  | AtFinal | Closed => []
  end.

(** The reducer attribute is set exactly while a candidate is pending. *)
Definition reducer_matches (g : gen_state) (s : strategy) : Prop :=
  match g with
  | Created | AtFinal => _current_reducer s = None
  | AtCandidate _ _ _ _ => is_Some (_current_reducer s)
  | Closed => True
  end.

(** The state in which a verdict leaves the engine when the file in work
    has no estimate: the first statement of the branch is done, the
    subtraction raises. *)
Definition missing_state (s : strategy) : strategy :=
  if truthy (_current_feedback s) then set_testcase_root_dirty false s
  else set_tried ({[_calculate_testcase_hash s]} ∪ _tried s) s.

(** The root and the tried set after the verdict is handled, before the
    loops go on. *)
Definition verdict_root (s : strategy) : root :=
  match truthy (_current_feedback s), _current_served s with
  | true, Some served => _testcase_root (purge_unserved served s)
  | _, _ => _testcase_root s
  end.

Definition verdict_tried (s : strategy) : gset snapshot :=
  if truthy (_current_feedback s) then _tried s
  else {[_calculate_testcase_hash s]} ∪ _tried s.

(** *** The [Check] variant *)

Record check : Type := CheckStrategy {
  check_base : strategy;
  _remain : Z;
}.

(** [Check.__init__] *)
Definition check__init__ (testcases : root) (all_files : bool) : result check :=
  match __init__ _possible_iters testcases all_files with
  | Ok s => Ok (CheckStrategy (set_files_to_reduce (take 1 (_files_to_reduce s)) s) 1)
  | Raised e => Raised e
  end.

(** [update], which [Check] inherits *)
Definition check_update (success : bool) (served : option (list path)) (c : check)
  : check :=
  CheckStrategy (update success served (check_base c)) (_remain c).


(** [next()] on the generator of [Check.__iter__]: its body starts with
    [self._remain = 0] and then delegates to the generator of the base
    class. *)
Definition check__next__ (g : gen_state) (c : check) : check * gen_state * outcome :=
  let c := match g with
           | Created => CheckStrategy (check_base c) 0
           | _ => c
           end in
  let '(s', g', o) := __next__ g (check_base c) in
  (CheckStrategy s' (_remain c), g', o).

End Engine.

(** ** Part 3: concrete collaborators, to run the engine on examples *)

(** [needle in hay] on byte strings *)
Fixpoint contains (needle hay : string) : bool :=
  String.prefix needle hay ||
  match hay with
  | EmptyString => false
  | String _ hay' => contains needle hay'
  end.

(** A reduction iterator that proposes the candidates of a fixed plan, skips
    the ones it is told were tried, and keeps the last accepted one as its
    best test case. *)
Record scripted : Type := Scripted {
  best : content;
  attempt : option content;
  pending : list content;
}.

Definition scripted_collaborators (plan : content -> list content) : Collaborators := {|
  testcase_len := String.length;
  reducer := scripted;
  reduce := fun c => Scripted c None (plan c);
  update_tried := fun tried r =>
    Scripted (best r) (attempt r) (filter (fun c => c ∉ tried) (pending r));
  feedback := fun success r =>
    if success then Scripted (default (best r) (attempt r)) None (pending r) else r;
  next_reduction := fun r =>
    match pending r with
    | [] => (None, r)
    | c :: rest => (Some c, Scripted (best r) (Some c) rest)
    end;
  testcase := best;
  fingerprint := fun c => c;
  _contains_dd := fun c => contains "DDBEGIN" c && contains "DDEND" c;
|}.

(** Like [CheckOnly]: the test case itself is the only candidate. *)
Definition check_only : Collaborators := scripted_collaborators (fun c => [c]).

(** Proposes each proper prefix of the test case, longest first. *)
Fixpoint proper_prefixes (n : nat) (c : content) : list content :=
  match n with
  | O => []
  | S n' => String.substring 0 n' c :: proper_prefixes n' c
  end.

Definition prefix_minimizer : Collaborators :=
  scripted_collaborators (fun c => proper_prefixes (String.length c) c).

(** Drives a generator with a list of verdicts, one [update] after each
    yield; the result is the state after the last [next()] and the list of
    [__len__] values seen after each [next()]. *)
Fixpoint drive `{C : Collaborators} (verdicts : list (bool * option (list path)))
    (g : gen_state) (s : strategy) : strategy * gen_state * outcome * list Z :=
  let '(s1, g1, o) := __next__ g s in
  match o, verdicts with
  | Yield _, (success, served) :: verdicts' =>
      let '(s2, g2, o2, lens) := drive verdicts' g1 (update success served s1) in
      (s2, g2, o2, __len__ s1 :: lens)
  | _, _ => (s1, g1, o, [__len__ s1])
  end.

(** *** Example states *)

Local Open Scope string_scope.

(** What can be read off an engine: its attributes, with the dictionaries
    and sets as lists. *)
Definition observe `{C : Collaborators} (s : strategy) :=
  (_testcase_root s, map_to_list <$> elements (_tried s), _current_reducer s,
   _files_to_reduce s, map_to_list (_possible_iters_remain s), _current_feedback s,
   _current_served s, _testcase_root_dirty s).

(** Two reducible files, a metadata file and a directory. *)
Definition example_root : root :=
  [Entry ["a.html"] true "ab"; Entry ["b.html"] true "xyz";
   Entry ["prefs.js"] true "p"; Entry ["d"] false ""].

(** [example_root] after the first candidate of [prefix_minimizer] for
    ["a.html"] was written to it. *)
Definition example_root_a : root :=
  [Entry ["a.html"] true "a"; Entry ["b.html"] true "xyz";
   Entry ["prefs.js"] true "p"; Entry ["d"] false ""].

(** The engine on [example_root] with [prefix_minimizer], suspended at its
    first candidate, before the verdict. *)
Definition example_at_first : @strategy prefix_minimizer :=
  Strategy example_root_a true ∅ (Some (Scripted "ab" (Some "a") [""] : @reducer prefix_minimizer))
    [["a.html"]; ["b.html"]] {[ ["a.html"] := 4; ["b.html"] := 8 ]} None None false.

(** The engine of [example_at_first] after its first candidate was
    rejected and the snapshot of the root recorded. *)
Definition example_after_rejection : @strategy prefix_minimizer :=
  Strategy example_root_a true
    {[ {[ ["a.html"] := "a"; ["b.html"] := "xyz" ]} ]}
    (Some (Scripted "ab" (Some "a") [""] : @reducer prefix_minimizer))
    [["a.html"]; ["b.html"]] {[ ["a.html"] := 3; ["b.html"] := 8 ]} (Some false) None false.

(** A file with the pair of markers, a file without, and a metadata file
    with them. *)
Definition marked_root : root :=
  [Entry ["a.html"] true "x DDBEGIN y DDEND z"; Entry ["b.html"] true "xyz";
   Entry ["test_info.json"] true "DDBEGIN DDEND"].

(** A root whose only file is empty. *)
Definition empty_file_root : root := [Entry ["a.html"] true ""].

(** The engine on [example_root], suspended at the final yield: the first
    candidate was accepted with only ["a.html"] served, which purged
    ["b.html"], and the second candidate was rejected. *)
Definition example_at_final : @strategy prefix_minimizer :=
  Strategy [Entry ["a.html"] true "a"; Entry ["prefs.js"] true "p"; Entry ["d"] false ""]
    true {[ {[ ["a.html"] := "" ]} ]} None [["a.html"]] ∅ (Some false) None true.

(** The engine on [empty_file_root] with [check_only], suspended at its only
    candidate. *)
Definition empty_at_first : @strategy check_only :=
  Strategy empty_file_root true ∅ (Some (Scripted "" (Some "") [] : @reducer check_only))
    [["a.html"]] {[ ["a.html"] := -1 ]} None None false.

(** A root with one file of three characters. *)
Definition xyz_root : root := [Entry ["b.html"] true "xyz"].

(** The engine on [xyz_root] with [check_only], suspended at its only
    candidate, the file itself. *)
Definition xyz_at_first : @strategy check_only :=
  Strategy xyz_root true ∅ (Some (Scripted "xyz" (Some "xyz") [] : @reducer check_only))
    [["b.html"]] {[ ["b.html"] := 8 ]} None None false.

(** The engine of [example_at_first] at its second candidate for
    ["a.html"], after the first one was rejected. *)
Definition example_at_second : @strategy prefix_minimizer :=
  Strategy
    [Entry ["a.html"] true ""; Entry ["b.html"] true "xyz";
     Entry ["prefs.js"] true "p"; Entry ["d"] false ""]
    true {[ {[ ["a.html"] := "a"; ["b.html"] := "xyz" ]} ]}
    (Some (Scripted "ab" (Some "") [] : @reducer prefix_minimizer))
    [["a.html"]; ["b.html"]] {[ ["a.html"] := 3; ["b.html"] := 8 ]} (Some false) None false.

(** The engine on [xyz_root] with [check_only] in a second iteration, after
    a first one that ended normally: at its candidate, with the verdict
    given. *)
Definition xyz_second_iteration : @strategy check_only :=
  Strategy xyz_root true ∅ (Some (Scripted "xyz" None [] : @reducer check_only))
    [["b.html"]] ∅ (Some true) None false.

(** The base engine of a [Check] object on [example_root] with
    [check_only], at its only candidate, accepted with both files served. *)
Definition check_served : @strategy check_only :=
  Strategy example_root true ∅ (Some (Scripted "ab" None [] : @reducer check_only))
    [["a.html"]] {[ ["a.html"] := 4; ["b.html"] := 8 ]} (Some true)
    (Some [["a.html"]; ["b.html"]]) false.

Local Close Scope string_scope.

(** ** Part 4: the estimator computes the sum of the specification *)

Example possible_iters_1_9 :
  map _possible_iters [1; 2; 3; 4; 5; 6; 7; 8; 9] = [2; 4; 8; 10; 15; 17; 20; 22; 28].
Proof. vm_compute. reflexivity. Qed.




Lemma pow2_succ (k : nat) : 2 ^ Z.of_nat (S k) = 2 * 2 ^ Z.of_nat k.
Proof. rewrite Nat2Z.inj_succ, Z.pow_succ_r; lia. Qed.








(** Enough fuel: the loop of [_chunk_iters] does not depend on it. *)
Lemma chunk_while_enough (length : Z) :
  forall (f1 f2 : nat) (cs : Q) (result : Z),
    (cs <= inject_Z (2 ^ Z.of_nat f1))%Q -> (cs <= inject_Z (2 ^ Z.of_nat f2))%Q ->
    chunk_while f1 length cs result = chunk_while f2 length cs result.
Proof.
  assert (Hhalf : forall (f : nat) (cs : Q),
             (cs <= inject_Z (2 ^ Z.of_nat (S f)))%Q ->
             (cs / 2 <= inject_Z (2 ^ Z.of_nat f))%Q).
  { intros f cs H. apply Qle_shift_div_r; [reflexivity |].
    rewrite pow2_succ, inject_Z_mult in H. rewrite Qmult_comm. exact H. }
  assert (Hone : forall cs : Q, (cs <= inject_Z (2 ^ Z.of_nat 0))%Q -> (1 < cs)%Q -> False).
  { intros cs H1 H2. exact (Qlt_not_le _ _ H2 H1). }
  induction f1 as [| f1 IH]; intros f2 cs result H1 H2.
  - destruct f2 as [| f2]; [reflexivity |]. simpl.
    destruct (Qlt_le_dec 1 cs) as [Hlt | _]; [| reflexivity].
    destruct (Hone cs H1 Hlt).
  - cbn [chunk_while]. destruct (Qlt_le_dec 1 cs) as [Hlt | Hle].
    + destruct f2 as [| f2]; [destruct (Hone cs H2 Hlt) |].
      cbn [chunk_while]. destruct (Qlt_le_dec 1 cs) as [_ | Hle'].
      * apply IH; auto.
      * destruct (Qlt_not_le _ _ Hlt Hle').
    + destruct f2 as [| f2]; [reflexivity |]. cbn [chunk_while].
      destruct (Qlt_le_dec 1 cs) as [Hlt | _]; [| reflexivity].
      destruct (Qlt_not_le _ _ Hlt Hle).
Qed.

Lemma halving_fuel_enough (cs : Q) : (cs <= inject_Z (2 ^ Z.of_nat (halving_fuel cs)))%Q.
Proof.
  unfold halving_fuel. rewrite Z2Nat.id by apply Z.log2_up_nonneg.
  eapply Qle_trans; [apply Qle_ceiling |]. rewrite <- Zle_Qle.
  destruct (Z_lt_le_dec 1 (Qceiling cs)) as [H1 | H1].
  - apply Z.log2_up_spec. exact H1.
  - pose proof (Z.pow_pos_nonneg 2 (Z.log2_up (Qceiling cs)) ltac:(lia)
                  (Z.log2_up_nonneg _)). lia.
Qed.

(** The loop of [_chunk_iters] satisfies the equation of the [while] loop
    at every chunk size: the fuel never runs out. *)
Lemma chunk_while_unfold (length : Z) (cs : Q) (result : Z) :
  chunk_while (halving_fuel cs) length cs result =
  if Qlt_le_dec 1 cs
  then chunk_while (halving_fuel (cs / 2)) length (cs / 2)%Q
         (result + divide_rounding_up (inject_Z length) cs)
  else result.
Proof.
  pose proof (halving_fuel_enough cs) as Hcs.
  destruct (halving_fuel cs) as [| f] eqn:Ef.
  - simpl. destruct (Qlt_le_dec 1 cs) as [Hlt | _]; [| reflexivity].
    destruct (Qlt_not_le _ _ Hlt Hcs).
  - cbn [chunk_while]. destruct (Qlt_le_dec 1 cs) as [Hlt | _]; [| reflexivity].
    apply chunk_while_enough; [| apply halving_fuel_enough].
    apply Qle_shift_div_r; [reflexivity |].
    rewrite pow2_succ, inject_Z_mult in Hcs. rewrite Qmult_comm. exact Hcs.
Qed.

(** *** The sum of the ceilings, on integers *)













(** ** Part 5: facts about the engine *)

Section EngineFacts.
Context `{C : Collaborators}.

Ltac unfold_monad :=
  unfold mbind, mret, M_bind, M_ret, bind, ret, raise, get, modify, lift_option in *.

(** *** The scanner *)

Lemma delete_keys_lookup (removed : list path) (d : gmap path Z) (k : path) :
  delete_keys removed d !! k = if decide (k ∈ removed) then None else d !! k.
Proof.
  induction removed as [| r removed IH]; simpl.
  - destruct (decide (k ∈ [])) as [H | _]; [| reflexivity]. inversion H.
  - destruct (decide (r = k)) as [-> | Hne].
    + rewrite lookup_delete_eq. rewrite decide_True by left. reflexivity.
    + rewrite lookup_delete_ne by exact Hne. rewrite IH.
      destruct (decide (k ∈ removed)) as [Hin | Hnin].
      * rewrite decide_True by (right; exact Hin). reflexivity.
      * rewrite decide_False; [reflexivity |].
        intros Hin. apply elem_of_cons in Hin. destruct Hin as [-> | Hin]; auto.
Qed.

Lemma rescan_files (s : strategy) :
  _files_to_reduce (rescan_files_to_reduce s) =
  e_path <$> filter (fun e => reducible (_all_files s) e = true) (_testcase_root s).
Proof. reflexivity. Qed.

Lemma rescan_remain (s : strategy) (p : path) :
  _possible_iters_remain (rescan_files_to_reduce s) !! p =
  if decide (p ∈ _files_to_reduce (rescan_files_to_reduce s))
  then _possible_iters_remain s !! p else None.
Proof.
  rewrite rescan_files. unfold rescan_files_to_reduce. cbn.
  rewrite delete_keys_lookup.
  set (files := e_path <$> filter _ (_testcase_root s)).
  destruct (decide (p ∈ files)) as [Hin | Hnin].
  - rewrite decide_False; [reflexivity |].
    rewrite elem_of_elements, elem_of_difference, elem_of_list_to_set. tauto.
  - destruct (decide (p ∈ elements _)) as [_ | Hno]; [reflexivity |].
    rewrite elem_of_elements, elem_of_difference, elem_of_list_to_set, elem_of_dom in Hno.
    destruct (_possible_iters_remain s !! p) eqn:E; [| reflexivity].
    exfalso. apply Hno. split; [eauto | exact Hnin].
Qed.

Lemma reducible_iff (all_files : bool) (e : entry) :
  reducible all_files e = true <->
  e_is_file e = true /\ reserved_name (name (e_path e)) = false /\
  (all_files = true \/ _contains_dd (e_data e) = true).
Proof.
  unfold reducible. rewrite !andb_true_iff, orb_true_iff, negb_true_iff. tauto.
Qed.

Lemma elem_of_rescan_files (s : strategy) (p : path) :
  p ∈ _files_to_reduce (rescan_files_to_reduce s) <->
  exists e : entry, e ∈ _testcase_root s /\ e_path e = p /\
    reducible (_all_files s) e = true.
Proof.
  rewrite rescan_files, list_elem_of_fmap. split.
  - intros (e & -> & He). apply list_elem_of_filter in He. exists e. tauto.
  - intros (e & He & <- & Hr). exists e. split; [reflexivity |].
    apply list_elem_of_filter. tauto.
Qed.

(** *** The verdict *)

Lemma decrement_ok (file : path) (amount v : Z) (s : strategy) :
  _possible_iters_remain s !! file = Some v ->
  decrement file amount s =
  (Ok tt, set_possible_iters_remain (<[file := v - amount]> (_possible_iters_remain s)) s).
Proof. intros H. unfold decrement. unfold_monad. rewrite H. reflexivity. Qed.

Lemma decrement_missing (file : path) (amount : Z) (s : strategy) :
  _possible_iters_remain s !! file = None ->
  decrement file amount s = (Raised KeyError, s).
Proof. intros H. unfold decrement. unfold_monad. rewrite H. reflexivity. Qed.

Lemma on_accept_ok (file : path) (testcase_length v : Z) (reduction : content)
    (s : strategy) :
  _possible_iters_remain s !! file = Some v ->
  on_accept file testcase_length reduction s =
  (Ok (Z.of_nat (testcase_len reduction)),
   accepted_state file testcase_length reduction v s).
Proof.
  intros H. unfold on_accept. unfold_monad. cbn.
  rewrite (decrement_ok file _ v) by exact H. reflexivity.
Qed.

Lemma on_reject_ok (file : path) (v : Z) (s : strategy) :
  _possible_iters_remain s !! file = Some v ->
  on_reject file s =
  (Ok tt, rejected_state file v s).
Proof.
  intros H. unfold on_reject. unfold_monad. cbn.
  rewrite (decrement_ok file _ v) by exact H. reflexivity.
Qed.

(** *** Seeding the reducer with the tried fingerprints *)





(** *** Purging the files that were not served *)

Lemma on_served_eq (served reduce_queue : list path) (file : path) (s : strategy) :
  on_served served reduce_queue file s =
  (Ok (served_queue served reduce_queue s,
       bool_decide (file ∉ _files_to_reduce (served_state served s))),
   served_state served s).
Proof. reflexivity. Qed.

Lemma elem_of_sorted (p : path) (l : list path) : p ∈ sorted l <-> p ∈ l.
Proof. unfold sorted. rewrite merge_sort_Permutation. reflexivity. Qed.

Lemma elem_of_served_queue (served reduce_queue : list path) (s : strategy) (p : path) :
  p ∈ served_queue served reduce_queue s <->
  p ∈ reduce_queue /\ p ∈ _files_to_reduce (served_state served s).
Proof.
  unfold served_queue. rewrite elem_of_sorted, list_elem_of_filter, elem_of_remove_dups.
  tauto.
Qed.

(** *** The loops of the generator *)

Lemma begin_file_frame (file : path) (s s1 : strategy) (r : result Z) :
  begin_file file s = (r, s1) ->
  exists cr : option reducer, s1 = set_current_reducer cr s.
Proof.
  unfold begin_file. unfold_monad. cbn.
  destruct (read_bytes (_testcase_root s) file) as [data |]; cbn.
  - destruct (_calculate_testcase_hash s !! file); cbn.
    + destruct (seed_tried _ _ _); cbn; intros [= <- <-]; eauto.
    + intros [= <- <-]. eauto.
  - intros [= <- <-]. exists (_current_reducer s). destruct s; reflexivity.
Qed.

Lemma while_cons (file : path) (reduce_queue : list path) (s : strategy) :
  while_reduce_queue (file :: reduce_queue) s =
  match begin_file file s with
  | (Ok testcase_length, s1) =>
      for_reduction (while_reduce_queue reduce_queue) reduce_queue file testcase_length s1
  | (Raised e, s1) => (Raised e, s1)
  end.
Proof. reflexivity. Qed.

Lemma for_reduction_eq (rest : M (gen_state * outcome)) (reduce_queue : list path)
    (file : path) (testcase_length : Z) (s : strategy) :
  for_reduction rest reduce_queue file testcase_length s =
  match _current_reducer s with
  | Some r =>
      match next_reduction r with
      | (Some reduction, r') =>
          let root' := write_file (_testcase_root s) file reduction in
          (Ok (AtCandidate reduce_queue file testcase_length reduction, Yield root'),
           set_testcase_root root' (set_current_reducer (Some r') s))
      | (None, r') => rest (end_file file (dump_best file (set_current_reducer (Some r') s)))
      end
  | None => rest (end_file file (dump_best file s))
  end.
Proof.
  unfold for_reduction, next_candidate. unfold_monad. cbn.
  destruct (_current_reducer s) as [r |]; [| reflexivity].
  destruct (next_reduction r) as [[reduction |] r']; reflexivity.
Qed.

Lemma finish_eq (s : strategy) :
  finish s =
  if _testcase_root_dirty s then (Ok (AtFinal, Yield (_testcase_root s)), s)
  else (Ok (Closed, StopIteration), set_testcase_root_dirty false s).
Proof. unfold finish. unfold_monad. destruct (_testcase_root_dirty s); reflexivity. Qed.

Lemma remain_end_file_dump_best (file : path) (s : strategy) :
  _possible_iters_remain (end_file file (dump_best file s)) =
  delete file (_possible_iters_remain s).
Proof. unfold end_file, dump_best. destruct (_current_reducer s); reflexivity. Qed.

Lemma dirty_end_file_dump_best (file : path) (s : strategy) :
  _testcase_root_dirty (end_file file (dump_best file s)) = _testcase_root_dirty s.
Proof. unfold end_file, dump_best. destruct (_current_reducer s); reflexivity. Qed.

Lemma dirty_dump_best (file : path) (s : strategy) :
  _testcase_root_dirty (dump_best file s) = _testcase_root_dirty s.
Proof. unfold dump_best. destruct (_current_reducer s); reflexivity. Qed.

Lemma while_reduce_queue_reached (reduce_queue : list path) :
  forall (s s' : strategy) (r : result (gen_state * outcome)),
    while_reduce_queue reduce_queue s = (r, s') -> reached reduce_queue s r s'.
Proof.
  induction reduce_queue as [| file q IH]; intros s s' r.
  - cbn [while_reduce_queue]. rewrite finish_eq.
    destruct (_testcase_root_dirty s) eqn:Ed; intros [= <- <-]; cbn; auto.
  - rewrite while_cons. destruct (begin_file file s) as [[len | e] s1] eqn:Eb.
    2:{ intros [= <- <-]. exact I. }
    destruct (begin_file_frame _ _ _ _ Eb) as [cr ->].
    rewrite for_reduction_eq.
    assert (Hrest : forall s2 : strategy,
               _testcase_root_dirty s2 = _testcase_root_dirty s ->
               while_reduce_queue q (end_file file (dump_best file s2)) = (r, s') ->
               reached (file :: q) s r s').
    { intros s2 Hd H. apply IH in H.
      destruct r as [[[| q' f len' red | |] o] | e]; cbn in H |- *;
        rewrite ?dirty_end_file_dump_best, ?dirty_dump_best, ?Hd in H; auto.
      destruct H as (Ho & Hf & Hq & Hdirty).
      split; [exact Ho |]. split; [right; exact Hf |].
      split; [intros p Hp; right; auto | exact Hdirty]. }
    cbn [_current_reducer set_current_reducer].
    destruct cr as [rd |].
    + destruct (next_reduction rd) as [[red |] rd'].
      * intros [= <- <-]. cbn.
        split; [reflexivity |]. split; [left |].
        split; [intros p Hp; right; exact Hp | reflexivity].
      * apply Hrest. reflexivity.
    + apply Hrest. reflexivity.
Qed.


(** *** Resuming after a verdict *)

Lemma resume_rejected (reduce_queue : list path) (file : path) (testcase_length v : Z)
    (reduction : content) (s : strategy) :
  truthy (_current_feedback s) = false ->
  _possible_iters_remain s !! file = Some v ->
  resume_candidate reduce_queue file testcase_length reduction s =
  for_reduction (while_reduce_queue reduce_queue) reduce_queue file testcase_length
    (rejected_state file v s).
Proof.
  intros Hf Hv. unfold resume_candidate. unfold_monad. cbn beta iota. rewrite Hf.
  rewrite (on_reject_ok file v s Hv). cbn beta iota.
  replace (truthy (_current_feedback (rejected_state file v s))) with false
    by (symmetry; exact Hf).
  reflexivity.
Qed.

Lemma resume_accepted (reduce_queue : list path) (file : path) (testcase_length v : Z)
    (reduction : content) (s : strategy) :
  truthy (_current_feedback s) = true ->
  _current_served s = None ->
  _possible_iters_remain s !! file = Some v ->
  resume_candidate reduce_queue file testcase_length reduction s =
  for_reduction (while_reduce_queue reduce_queue) reduce_queue file
    (Z.of_nat (testcase_len reduction))
    (accepted_state file testcase_length reduction v s).
Proof.
  intros Hf Hs Hv. unfold resume_candidate. unfold_monad. cbn beta iota. rewrite Hf.
  rewrite (on_accept_ok file testcase_length v reduction s Hv). cbn beta iota.
  replace (truthy (_current_feedback (accepted_state file testcase_length reduction v s)))
    with true by (symmetry; exact Hf).
  replace (_current_served (accepted_state file testcase_length reduction v s))
    with (@None (list path)) by (symmetry; exact Hs).
  reflexivity.
Qed.

Lemma resume_served (reduce_queue served : list path) (file : path)
    (testcase_length v : Z) (reduction : content) (s : strategy) :
  truthy (_current_feedback s) = true ->
  _current_served s = Some served ->
  _possible_iters_remain s !! file = Some v ->
  let s1 := accepted_state file testcase_length reduction v s in
  let s2 := served_state served s1 in
  let reduce_queue' := served_queue served reduce_queue s1 in
  resume_candidate reduce_queue file testcase_length reduction s =
  if decide (file ∈ _files_to_reduce s2)
  then for_reduction (while_reduce_queue reduce_queue') reduce_queue' file
         (Z.of_nat (testcase_len reduction)) s2
  else while_reduce_queue reduce_queue' (end_file file s2).
Proof.
  intros Hf Hs Hv s1 s2 q'. unfold resume_candidate. unfold_monad. cbn beta iota.
  rewrite Hf. rewrite (on_accept_ok file testcase_length v reduction s Hv).
  fold s1. cbn beta iota.
  replace (truthy (_current_feedback s1)) with true by (symmetry; exact Hf).
  replace (_current_served s1) with (Some served) by (symmetry; exact Hs).
  rewrite on_served_eq. fold s2 q'.
  destruct (decide (file ∈ _files_to_reduce s2)) as [Hin | Hnin].
  - rewrite bool_decide_eq_false_2 by tauto. reflexivity.
  - rewrite bool_decide_eq_true_2 by exact Hnin. reflexivity.
Qed.

Lemma resume_missing (reduce_queue : list path) (file : path) (testcase_length : Z)
    (reduction : content) (s : strategy) :
  _possible_iters_remain s !! file = None ->
  exists s' : strategy,
    resume_candidate reduce_queue file testcase_length reduction s = (Raised KeyError, s').
Proof.
  intros Hv. unfold resume_candidate, on_accept, on_reject. unfold_monad.
  destruct (truthy (_current_feedback s)); cbn;
    rewrite decrement_missing by exact Hv; eauto.
Qed.

Lemma for_reduction_reached (reduce_queue : list path) (file : path)
    (testcase_length : Z) (s s' : strategy) (r : result (gen_state * outcome)) :
  for_reduction (while_reduce_queue reduce_queue) reduce_queue file testcase_length s
  = (r, s') ->
  reached (file :: reduce_queue) s r s'.
Proof.
  rewrite for_reduction_eq.
  assert (Hrest : forall s2 : strategy,
             _testcase_root_dirty s2 = _testcase_root_dirty s ->
             while_reduce_queue reduce_queue (end_file file (dump_best file s2)) = (r, s') ->
             reached (file :: reduce_queue) s r s').
  { intros s2 Hd H. apply while_reduce_queue_reached in H.
    destruct r as [[[| q' f len' red | |] o] | e]; cbn in H |- *;
      rewrite ?dirty_end_file_dump_best, ?dirty_dump_best, ?Hd in H; auto.
    destruct H as (Ho & Hf & Hq & Hdirty).
    split; [exact Ho |]. split; [right; exact Hf |].
    split; [intros p Hp; right; auto | exact Hdirty]. }
  destruct (_current_reducer s) as [rd |].
  - destruct (next_reduction rd) as [[red |] rd'].
    + intros [= <- <-]. cbn.
      split; [reflexivity |]. split; [left |].
      split; [intros p Hp; right; exact Hp | reflexivity].
    + apply Hrest. reflexivity.
  - apply Hrest. reflexivity.
Qed.


Lemma remain_served_state (served : list path) (s : strategy) (p : path) :
  _possible_iters_remain (served_state served s) !! p =
  if decide (p ∈ _files_to_reduce (served_state served s))
  then _possible_iters_remain s !! p else None.
Proof.
  unfold served_state. cbn [_possible_iters_remain _files_to_reduce set_testcase_root_dirty].
  rewrite rescan_remain. reflexivity.
Qed.

(** Resuming after a candidate either raises [KeyError], or continues the
    [for] loop, or leaves it for the rest of the queue. *)
Lemma resume_candidate_cases (reduce_queue : list path) (file : path)
    (testcase_length : Z) (reduction : content) (s : strategy) :
  (exists s' : strategy,
      resume_candidate reduce_queue file testcase_length reduction s
      = (Raised KeyError, s')) \/
  exists (reduce_queue' : list path) (testcase_length' : Z) (s1 : strategy),
    (forall p : path, p ∈ reduce_queue' -> p ∈ reduce_queue) /\
    (forall p : path, is_Some (_possible_iters_remain s1 !! p) ->
                      is_Some (_possible_iters_remain s !! p) /\
                      (p ∈ reduce_queue -> p ∈ reduce_queue')) /\
    (resume_candidate reduce_queue file testcase_length reduction s
     = for_reduction (while_reduce_queue reduce_queue') reduce_queue' file
         testcase_length' s1 \/
     resume_candidate reduce_queue file testcase_length reduction s
     = while_reduce_queue reduce_queue' (end_file file s1)).
Proof.
  destruct (_possible_iters_remain s !! file) as [v |] eqn:Ev.
  2:{ left. apply resume_missing. exact Ev. }
  right.
  assert (Hins : forall (x : Z) (p : path),
             is_Some (<[file := x]> (_possible_iters_remain s) !! p) ->
             is_Some (_possible_iters_remain s !! p)).
  { intros x p. destruct (decide (file = p)) as [<- | Hne].
    - rewrite Ev. eauto.
    - rewrite lookup_insert_ne by exact Hne. auto. }
  destruct (truthy (_current_feedback s)) eqn:Ef.
  - destruct (_current_served s) as [served |] eqn:Es.
    + pose proof (resume_served reduce_queue served file testcase_length v reduction s
                    Ef Es Ev) as H. cbv zeta in H.
      set (s1 := accepted_state file testcase_length reduction v s) in *.
      exists (served_queue served reduce_queue s1), (Z.of_nat (testcase_len reduction)),
        (served_state served s1).
      split; [intros p Hp; apply elem_of_served_queue in Hp; tauto |].
      split.
      * intros p. rewrite remain_served_state.
        destruct (decide (p ∈ _files_to_reduce (served_state served s1))) as [Hin | Hnin].
        -- intros Hp. split; [exact (Hins _ p Hp) |].
           intros Hq. apply elem_of_served_queue. tauto.
        -- intros [? [=]].
      * rewrite H. destruct (decide (file ∈ _files_to_reduce (served_state served s1))); auto.
    + exists reduce_queue, (Z.of_nat (testcase_len reduction)),
        (accepted_state file testcase_length reduction v s).
      split; [auto |]. split; [intros p Hp; split; [exact (Hins _ p Hp) | auto] |].
      left. apply resume_accepted; assumption.
  - exists reduce_queue, testcase_length, (rejected_state file v s).
    split; [auto |]. split; [intros p Hp; split; [exact (Hins _ p Hp) | auto] |].
    left. apply resume_rejected; assumption.
Qed.

Lemma run_inv (m : M (gen_state * outcome)) (s s' : strategy) (g' : gen_state)
    (o : outcome) :
  run m s = (s', g', o) ->
  m s = (Ok (g', o), s') \/ exists e : exn, m s = (Raised e, s') /\ g' = Closed /\ o = Raise e.
Proof.
  unfold run. destruct (m s) as [[[g1 o1] | e] s1]; intros [= <- <- <-]; eauto.
Qed.

(** *** One step of the generator *)

Lemma start_eq (s : strategy) :
  start s = while_reduce_queue (sorted (_files_to_reduce s))
              (set_testcase_root_dirty false s).
Proof. reflexivity. Qed.

Lemma resume_final_eq (s : strategy) :
  resume_final s =
  if truthy (_current_feedback s)
  then (Ok (Closed, StopIteration), set_testcase_root_dirty false s)
  else (Raised AssertionError, s).
Proof.
  unfold resume_final. unfold_monad. destruct (truthy (_current_feedback s)); reflexivity.
Qed.

Lemma reached_stops_at (reduce_queue : list path) (s s' : strategy) (g' : gen_state)
    (o : outcome) :
  reached reduce_queue s (Ok (g', o)) s' -> stops_at g' o s'.
Proof.
  destruct g' as [| q' f len' red | |]; cbn; [tauto | tauto | tauto |].
  intros (-> & _ & Hd). left. auto.
Qed.

Lemma next_stops_at (g : gen_state) (s s' : strategy) (g' : gen_state) (o : outcome) :
  g ≠ Closed -> __next__ g s = (s', g', o) -> stops_at g' o s'.
Proof.
  intros Hg H. destruct g as [| q f len red | |]; [| | | contradiction]; cbn in H;
    apply run_inv in H; destruct H as [H | (e & _ & -> & ->)];
    try (right; eauto; fail).
  - rewrite start_eq in H. apply while_reduce_queue_reached in H.
    exact (reached_stops_at _ _ _ _ _ H).
  - destruct (resume_candidate_cases q f len red s)
      as [[s1 H1] | (q' & len' & s1 & _ & _ & [H1 | H1])]; rewrite H1 in H.
    + discriminate.
    + apply for_reduction_reached in H. exact (reached_stops_at _ _ _ _ _ H).
    + apply while_reduce_queue_reached in H. exact (reached_stops_at _ _ _ _ _ H).
  - rewrite resume_final_eq in H. destruct (truthy (_current_feedback s)); [| discriminate].
    injection H as <- <- <-. left. auto.
Qed.


(** *** The length estimate *)

Lemma sum_values_empty : sum_values ∅ = 0.
Proof. reflexivity. Qed.



(** *** Construction *)

Lemma read_bytes_is_Some (r : root) (p : path) :
  (exists e : entry, e ∈ r /\ e_path e = p /\ e_is_file e = true) ->
  is_Some (read_bytes r p).
Proof.
  intros (e & He & Hp & Hf). unfold read_bytes.
  destruct (find _ r) as [e' |] eqn:E; [cbn; eauto |].
  apply list_elem_of_In in He.
  pose proof (find_none _ _ E e He) as Hn. cbn in Hn.
  rewrite Hf, bool_decide_eq_true_2 in Hn by exact Hp. discriminate.
Qed.

Lemma init_possible_iters_spec (possible_iters : Z -> Z) (files : list path) :
  forall (s s' : strategy) (r : result unit),
    init_possible_iters possible_iters files s = (r, s') ->
    (exists d : gmap path Z, s' = set_possible_iters_remain d s) /\
    (r = Ok tt ->
     forall p : path,
       _possible_iters_remain s' !! p =
       if decide (p ∈ files)
       then (fun test => possible_iters (Z.of_nat (testcase_len test)))
              <$> read_bytes (_testcase_root s) p
       else _possible_iters_remain s !! p).
Proof.
  induction files as [| f files IH]; intros s s' r.
  - cbn. unfold_monad. intros [= <- <-]. split.
    + exists (_possible_iters_remain s). destruct s; reflexivity.
    + intros _ p. rewrite decide_False; [reflexivity |]. intros H. inversion H.
  - cbn [init_possible_iters]. unfold_monad. cbn beta iota.
    destruct (read_bytes (_testcase_root s) f) as [test |] eqn:Er.
    2:{ intros [= <- <-]. split; [| discriminate].
        exists (_possible_iters_remain s). destruct s; reflexivity. }
    cbn beta iota. intros H. apply IH in H. destruct H as [[d ->] Hl]. split.
    + exists d. reflexivity.
    + intros Hr p. rewrite (Hl Hr p). cbn [_testcase_root set_possible_iters_remain
                                              _possible_iters_remain].
      destruct (decide (p ∈ files)) as [Hin | Hnin].
      * rewrite decide_True by (right; exact Hin). reflexivity.
      * destruct (decide (f = p)) as [<- | Hne].
        -- rewrite lookup_insert_eq, decide_True by left. rewrite Er. reflexivity.
        -- rewrite lookup_insert_ne by exact Hne.
           rewrite decide_False; [reflexivity |].
           intros H. apply elem_of_cons in H. destruct H as [-> | H]; auto.
Qed.

Lemma init_possible_iters_ok (possible_iters : Z -> Z) (files : list path) :
  forall s : strategy,
    (forall p : path, p ∈ files -> is_Some (read_bytes (_testcase_root s) p)) ->
    exists s' : strategy, init_possible_iters possible_iters files s = (Ok tt, s').
Proof.
  induction files as [| f files IH]; intros s Hs.
  - cbn. unfold_monad. eauto.
  - cbn [init_possible_iters]. unfold_monad. cbn beta iota.
    destruct (Hs f ltac:(left)) as [test ->]. cbn beta iota.
    apply IH. intros p Hp. cbn. apply Hs. right. exact Hp.
Qed.

Lemma init_spec (possible_iters : Z -> Z) (testcases : root) (all_files : bool) :
  exists d : gmap path Z,
    __init__ possible_iters testcases all_files
    = Ok (set_possible_iters_remain d (scanned testcases all_files)) /\
    forall p : path,
      d !! p =
      if decide (p ∈ _files_to_reduce (scanned testcases all_files))
      then (fun test => possible_iters (Z.of_nat (testcase_len test)))
             <$> read_bytes testcases p
      else None.
Proof.
  unfold __init__. fold (scanned testcases all_files). unfold_monad. cbn beta iota.
  set (s1 := scanned testcases all_files).
  destruct (init_possible_iters_ok possible_iters (_files_to_reduce s1) s1) as [s2 H2].
  { intros p Hp. apply read_bytes_is_Some. apply elem_of_rescan_files in Hp.
    destruct Hp as (e & He & Hp & Hr). apply reducible_iff in Hr. exists e. tauto. }
  rewrite H2. cbn beta iota.
  destruct (init_possible_iters_spec _ _ _ _ _ H2) as [[d ->] Hl].
  exists d. split.
  - reflexivity.
  - intros p. specialize (Hl eq_refl p).
    change (_possible_iters_remain (set_possible_iters_remain d s1)) with d in Hl.
    change (_testcase_root s1) with testcases in Hl.
    rewrite Hl. destruct (decide (p ∈ _files_to_reduce s1)); [reflexivity |].
    unfold s1, scanned. rewrite rescan_remain.
    destruct (decide _); [apply lookup_empty | reflexivity].
Qed.


End EngineFacts.

(** ** Part 6: the properties of the specification *)



Section Claims.
Context `{C : Collaborators}.



(** C7: the scan lists a path if and only if the root has a regular file
    there whose name is not reserved and which either is taken because all
    files are, or contains the pair of markers; the estimates of the paths
    that are not listed are removed and the others are kept; the root is
    not touched.  Without [all_files] every listed file contains the
    markers, and the files that iteration reduces are listed ones. *)
Theorem rescan_files_to_reduce_spec (s : strategy) :
  let s' := rescan_files_to_reduce s in
  (forall p : path,
      p ∈ _files_to_reduce s' <->
      exists e : entry,
        e ∈ _testcase_root s /\ e_path e = p /\ e_is_file e = true /\
        reserved_name (name p) = false /\
        (_all_files s = true \/ _contains_dd (e_data e) = true)) /\
  (forall p : path, p ∉ _files_to_reduce s' -> _possible_iters_remain s' !! p = None) /\
  (forall p : path, p ∈ _files_to_reduce s' ->
                    _possible_iters_remain s' !! p = _possible_iters_remain s !! p) /\
  _testcase_root s' = _testcase_root s /\
  (_all_files s = false ->
   forall p : path,
     p ∈ _files_to_reduce s' ->
     exists e : entry,
       e ∈ _testcase_root s /\ e_path e = p /\ _contains_dd (e_data e) = true) /\
  (forall (s1 : strategy) (reduce_queue : list path) (file : path) (testcase_length : Z)
          (reduction : content) (o : outcome),
      __next__ Created s' = (s1, AtCandidate reduce_queue file testcase_length reduction, o) ->
      file ∈ _files_to_reduce s' /\
      forall p : path, p ∈ reduce_queue -> p ∈ _files_to_reduce s').
Proof.
  intros s'.
  assert (Hiff : forall p : path,
             p ∈ _files_to_reduce s' <->
             exists e : entry,
               e ∈ _testcase_root s /\ e_path e = p /\ e_is_file e = true /\
               reserved_name (name p) = false /\
               (_all_files s = true \/ _contains_dd (e_data e) = true)).
  { intros p. unfold s'. rewrite elem_of_rescan_files. split.
    - intros (e & He & Hp & Hr). apply reducible_iff in Hr. rewrite Hp in Hr.
      exists e. tauto.
    - intros (e & He & Hp & Hf & Hn & Hd). exists e. rewrite reducible_iff, Hp. tauto. }
  split; [exact Hiff |]. split; [| split; [| split; [| split]]].
  - intros p Hp. unfold s'. rewrite rescan_remain. rewrite decide_False; auto.
  - intros p Hp. unfold s'. rewrite rescan_remain. rewrite decide_True; auto.
  - reflexivity.
  - intros Hall p Hp. apply Hiff in Hp. destruct Hp as (e & He & Hpe & _ & _ & [Ha | Hd]).
    + congruence.
    + eauto.
  - intros s1 q file len red o H. cbn in H. apply run_inv in H.
    destruct H as [H | (e & _ & [=] & _)].
    rewrite start_eq in H. apply while_reduce_queue_reached in H.
    cbv beta iota delta [reached] in H.
    destruct H as (_ & Hf & Hq & _). split.
    + rewrite elem_of_sorted in Hf. exact Hf.
    + intros p Hp. apply Hq in Hp. rewrite elem_of_sorted in Hp. exact Hp.
Qed.



(** C4: when the reduce queue is drained and the root is still dirty, the
    generator yields the root once more; resumed from this final yield it
    ends, with the dirty flag cleared on a success verdict and with an
    assertion failure otherwise; a generator that ends normally leaves the
    dirty flag cleared, and a closed generator yields nothing more. *)
Theorem final_dirty_yield (s : strategy) :
  while_reduce_queue [] s = finish s /\
  (_testcase_root_dirty s = true ->
   finish s = (Ok (AtFinal, Yield (_testcase_root s)), s)) /\
  (_testcase_root_dirty s = false ->
   finish s = (Ok (Closed, StopIteration), s)) /\
  (truthy (_current_feedback s) = true ->
   __next__ AtFinal s = (set_testcase_root_dirty false s, Closed, StopIteration)) /\
  (truthy (_current_feedback s) = false ->
   __next__ AtFinal s = (s, Closed, Raise AssertionError)) /\
  __next__ Closed s = (s, Closed, StopIteration) /\
  (forall (g : gen_state) (s' : strategy) (g' : gen_state) (o : outcome),
      g ≠ Closed -> __next__ g s = (s', g', o) ->
      (g' = AtFinal -> o = Yield (_testcase_root s') /\ _testcase_root_dirty s' = true) /\
      (o = StopIteration -> g' = Closed /\ _testcase_root_dirty s' = false)).
Proof.
  split; [reflexivity |]. rewrite finish_eq.
  split; [intros ->; reflexivity |].
  split; [intros H; rewrite H; destruct s; cbn in H; subst; reflexivity |].
  split; [intros H; cbn [__next__]; unfold run; rewrite resume_final_eq, H; reflexivity |].
  split; [intros H; cbn [__next__]; unfold run; rewrite resume_final_eq, H; reflexivity |].
  split; [reflexivity |].
  intros g s' g' o Hg H. apply next_stops_at in H; [| exact Hg]. split.
  - intros ->. exact H.
  - intros ->. destruct g' as [| q f len red | |]; cbn in H.
    + contradiction.
    + discriminate.
    + destruct H as [[=] _].
    + destruct H as [[_ Hd] | [e [=]]]. auto.
Qed.






End Claims.

(** ** Part 7: the properties on the example states *)

Local Open Scope string_scope.



Example example_at_first_reached :
  match @__init__ prefix_minimizer _possible_iters example_root true with
  | Ok s => let '(s1, g1, o1) := __next__ Created s in Some (observe s1, g1, o1)
  | Raised _ => None
  end = Some (observe example_at_first,
              AtCandidate [["b.html"]] ["a.html"] 2 "a", Yield example_root_a).
Proof. vm_compute. reflexivity. Qed.

Example example_after_rejection_reached :
  observe (on_reject ["a.html"] (update false None example_at_first)).2
  = observe example_after_rejection.
Proof. vm_compute. reflexivity. Qed.

Example example_at_final_reached :
  let '(s, g, o, lens) :=
    drive [(false, None)] (AtCandidate [["b.html"]] ["a.html"] 2 "a")
      (update true (Some [["a.html"]]) example_at_first) in
  (observe s, g, lens) = (observe example_at_final, AtFinal, [3; 1]).
Proof. vm_compute. reflexivity. Qed.

Example empty_at_first_reached :
  match @__init__ check_only _possible_iters empty_file_root true with
  | Ok s => let '(s1, g1, o1) := __next__ Created s in Some (observe s1, g1, o1)
  | Raised _ => None
  end = Some (observe empty_at_first, AtCandidate [] ["a.html"] 0 "", Yield empty_file_root).
Proof. vm_compute. reflexivity. Qed.

Example xyz_at_first_reached :
  match @__init__ check_only _possible_iters xyz_root true with
  | Ok s => let '(s1, g1, o1) := __next__ Created s in Some (observe s1, g1, o1)
  | Raised _ => None
  end = Some (observe xyz_at_first, AtCandidate [] ["b.html"] 3 "xyz", Yield xyz_root).
Proof. vm_compute. reflexivity. Qed.




Lemma rescan_files_to_reduce_spec_witness :
  let s : @strategy prefix_minimizer :=
    Strategy marked_root false ∅ None [] {[ ["gone.html"] := 3 ]} None None false in
  (["a.html"] ∈ _files_to_reduce (rescan_files_to_reduce s)) /\
  _possible_iters_remain (rescan_files_to_reduce s) !! ["gone.html"] = None.
Proof.
  intros s. destruct (rescan_files_to_reduce_spec s) as (Hin & Hgone & _). split.
  - apply Hin. exists (Entry ["a.html"] true "x DDBEGIN y DDEND z").
    split; [left |]. repeat split; auto.
  - apply Hgone. replace (_files_to_reduce (rescan_files_to_reduce s)) with [["a.html"]]
      by (vm_compute; reflexivity).
    intros H. apply list_elem_of_singleton in H. discriminate.
Defined.



Lemma final_dirty_yield_witness :
  __next__ AtFinal example_at_final = (example_at_final, Closed, Raise AssertionError) /\
  __next__ AtFinal (update true None example_at_final) =
  (set_testcase_root_dirty false (update true None example_at_final), Closed, StopIteration).
Proof.
  split.
  - destruct (final_dirty_yield example_at_final) as (_ & _ & _ & _ & H & _).
    apply H. reflexivity.
  - destruct (final_dirty_yield (update true None example_at_final))
      as (_ & _ & _ & H & _).
    apply H. reflexivity.
Defined.





(** ** Part 8: further properties of the estimator and of the engine *)

(** *** Bounds of the estimator *)







(** Reading a file back after it was written. *)
Lemma read_bytes_write_file (r : list entry) (p : path) (data : content) :
  read_bytes (write_file r p data) p = Some data.
Proof.
  unfold read_bytes, write_file. destruct (bool_decide (p ∈ e_path <$> r)) eqn:E.
  - apply bool_decide_eq_true in E. induction r as [| e r IH]; [inversion E |].
    rewrite fmap_cons. cbn [find].
    destruct (bool_decide (e_path e = p)) eqn:Ep.
    + cbn. rewrite bool_decide_eq_true_2 by reflexivity. reflexivity.
    + apply bool_decide_eq_false in Ep. rewrite (bool_decide_eq_false_2 _ Ep).
      rewrite andb_false_r. apply IH.
      rewrite fmap_cons in E. apply elem_of_cons in E. destruct E as [-> | E]; [| exact E].
      contradiction.
  - apply bool_decide_eq_false in E. induction r as [| e r IH]; cbn.
    + rewrite bool_decide_eq_true_2 by reflexivity. reflexivity.
    + rewrite fmap_cons in E.
      rewrite (bool_decide_eq_false_2 (e_path e = p)), andb_false_r.
      * apply IH. intros H. apply E. right. exact H.
      * intros H. apply E. rewrite H. left.
Qed.

Lemma read_bytes_outside (work : list path) (r : list entry) (p : path) :
  p ∉ work -> read_bytes (outside work r) p = read_bytes r p.
Proof.
  intros Hp. unfold read_bytes, outside. induction r as [| e r IH]; [reflexivity |].
  rewrite filter_cons. destruct (decide (e_path e ∉ work)) as [Hin | Hin].
  - cbn [find]. destruct (e_is_file e && bool_decide (e_path e = p)); [reflexivity | exact IH].
  - cbn [find]. rewrite (bool_decide_eq_false_2 (e_path e = p)), andb_false_r; [exact IH |].
    intros H. apply Hin. rewrite H. exact Hp.
Qed.

Section Extras.
Context `{C : Collaborators}.

Lemma outside_write_file (work : list path) (r : root) (p : path) (data : content) :
  p ∈ work -> outside work (write_file r p data) = outside work r.
Proof.
  intros Hp. unfold write_file, outside.
  destruct (bool_decide (p ∈ e_path <$> r)).
  - induction r as [| e r IH]; [reflexivity |].
    rewrite fmap_cons, !filter_cons. rewrite IH.
    destruct (bool_decide (e_path e = p)) eqn:E.
    + apply bool_decide_eq_true in E. cbn [e_path].
      rewrite !decide_False; [reflexivity | rewrite E; tauto | tauto].
    + reflexivity.
  - rewrite filter_app, filter_cons, filter_nil. cbn [e_path].
    rewrite decide_False by tauto. apply app_nil_r.
Qed.

Lemma outside_dump_best (work : list path) (file : path) (s : strategy) :
  file ∈ work ->
  outside work (_testcase_root (end_file file (dump_best file s)))
  = outside work (_testcase_root s).
Proof.
  intros Hf. unfold end_file, dump_best. destruct (_current_reducer s); cbn.
  - apply outside_write_file. exact Hf.
  - reflexivity.
Qed.

Lemma tried_end_file_dump_best (file : path) (s : strategy) :
  _tried (end_file file (dump_best file s)) = _tried s.
Proof. unfold end_file, dump_best. destruct (_current_reducer s); reflexivity. Qed.

Lemma reducer_end_file (file : path) (s : strategy) :
  _current_reducer (end_file file s) = None.
Proof. reflexivity. Qed.

(** What the loops of the generator leave alone, whatever their result. *)
Lemma for_reduction_frame (work reduce_queue : list path) (file : path)
    (testcase_length : Z) (rest : M (gen_state * outcome)) (s s' : strategy)
    (r : result (gen_state * outcome)) :
  file ∈ work ->
  (forall s1 s1' r1, rest s1 = (r1, s1') ->
     outside work (_testcase_root s1') = outside work (_testcase_root s1) /\
     _tried s1' = _tried s1) ->
  for_reduction rest reduce_queue file testcase_length s = (r, s') ->
  outside work (_testcase_root s') = outside work (_testcase_root s) /\
  _tried s' = _tried s.
Proof.
  intros Hf Hrest. rewrite for_reduction_eq.
  destruct (_current_reducer s) as [rd |].
  - destruct (next_reduction rd) as [[red |] rd'].
    + intros [= <- <-]. cbn. split; [apply outside_write_file; exact Hf | reflexivity].
    + intros H. apply Hrest in H. rewrite outside_dump_best, tried_end_file_dump_best in H
        by exact Hf. exact H.
  - intros H. apply Hrest in H. rewrite outside_dump_best, tried_end_file_dump_best in H
      by exact Hf. exact H.
Qed.

Lemma while_reduce_queue_frame (work : list path) (reduce_queue : list path) :
  forall (s s' : strategy) (r : result (gen_state * outcome)),
    (forall p : path, p ∈ reduce_queue -> p ∈ work) ->
    while_reduce_queue reduce_queue s = (r, s') ->
    outside work (_testcase_root s') = outside work (_testcase_root s) /\
    _tried s' = _tried s.
Proof.
  induction reduce_queue as [| file q IH]; intros s s' r Hq.
  - cbn [while_reduce_queue]. rewrite finish_eq.
    destruct (_testcase_root_dirty s); intros [= <- <-]; split; reflexivity.
  - rewrite while_cons. destruct (begin_file file s) as [[len | e] s1] eqn:Eb.
    + destruct (begin_file_frame _ _ _ _ Eb) as [cr ->]. intros H.
      apply (for_reduction_frame work) in H.
      * exact H.
      * apply Hq. left.
      * intros s1 s1' r1. apply IH. intros p Hp. apply Hq. right. exact Hp.
    + destruct (begin_file_frame _ _ _ _ Eb) as [cr ->].
      intros [= <- <-]. split; reflexivity.
Qed.

Lemma resume_missing_eq (reduce_queue : list path) (file : path) (testcase_length : Z)
    (reduction : content) (s : strategy) :
  _possible_iters_remain s !! file = None ->
  resume_candidate reduce_queue file testcase_length reduction s
  = (Raised KeyError, missing_state s).
Proof.
  intros Hv. unfold resume_candidate, on_accept, on_reject, missing_state.
  unfold mbind, mret, M_bind, M_ret, bind, ret, get, modify. cbn beta iota.
  destruct (truthy (_current_feedback s)); cbn beta iota;
    rewrite decrement_missing by exact Hv; reflexivity.
Qed.

Lemma resume_candidate_eq (reduce_queue : list path) (file : path)
    (testcase_length v : Z) (reduction : content) (s : strategy) :
  _possible_iters_remain s !! file = Some v ->
  resume_candidate reduce_queue file testcase_length reduction s =
  if truthy (_current_feedback s)
  then match _current_served s with
       | Some served =>
           let s1 := accepted_state file testcase_length reduction v s in
           let s2 := served_state served s1 in
           let reduce_queue' := served_queue served reduce_queue s1 in
           if decide (file ∈ _files_to_reduce s2)
           then for_reduction (while_reduce_queue reduce_queue') reduce_queue' file
                  (Z.of_nat (testcase_len reduction)) s2
           else while_reduce_queue reduce_queue' (end_file file s2)
       | None =>
           for_reduction (while_reduce_queue reduce_queue) reduce_queue file
             (Z.of_nat (testcase_len reduction))
             (accepted_state file testcase_length reduction v s)
       end
  else for_reduction (while_reduce_queue reduce_queue) reduce_queue file testcase_length
         (rejected_state file v s).
Proof.
  intros Hv. destruct (truthy (_current_feedback s)) eqn:Ef.
  - destruct (_current_served s) as [served |] eqn:Es.
    + apply resume_served; assumption.
    + apply resume_accepted; assumption.
  - apply resume_rejected; assumption.
Qed.

Lemma resume_candidate_frame (reduce_queue : list path) (file : path)
    (testcase_length v : Z) (reduction : content) (s s' : strategy)
    (r : result (gen_state * outcome)) :
  _possible_iters_remain s !! file = Some v ->
  resume_candidate reduce_queue file testcase_length reduction s = (r, s') ->
  outside (file :: reduce_queue) (_testcase_root s')
  = outside (file :: reduce_queue) (verdict_root s) /\
  _tried s' = verdict_tried s.
Proof.
  intros Hv. rewrite (resume_candidate_eq _ _ _ v) by exact Hv.
  unfold verdict_root, verdict_tried.
  assert (Hwhile : forall q : list path,
             (forall p : path, p ∈ q -> p ∈ reduce_queue) ->
             forall s1 s1' r1, while_reduce_queue q s1 = (r1, s1') ->
               outside (file :: reduce_queue) (_testcase_root s1')
               = outside (file :: reduce_queue) (_testcase_root s1) /\
               _tried s1' = _tried s1).
  { intros q Hq s1 s1' r1. apply while_reduce_queue_frame.
    intros p Hp. right. apply Hq. exact Hp. }
  destruct (truthy (_current_feedback s)).
  - destruct (_current_served s) as [served |].
    + cbv zeta.
      set (s1 := accepted_state file testcase_length reduction v s).
      assert (Hq : forall p : path, p ∈ served_queue served reduce_queue s1 ->
                                    p ∈ reduce_queue).
      { intros p Hp. apply elem_of_served_queue in Hp. tauto. }
      destruct (decide (file ∈ _files_to_reduce (served_state served s1))).
      * intros H. apply (for_reduction_frame (file :: reduce_queue)) in H;
          [exact H | left | apply Hwhile; exact Hq].
      * intros H. apply (Hwhile _ Hq) in H. exact H.
    + intros H. apply (for_reduction_frame (file :: reduce_queue)) in H;
        [exact H | left | apply Hwhile; auto].
  - intros H. apply (for_reduction_frame (file :: reduce_queue)) in H;
      [exact H | left | apply Hwhile; auto].
Qed.

Lemma outside_nil (r : list entry) : outside [] r = r.
Proof.
  unfold outside. induction r as [| e r IH]; [reflexivity |].
  rewrite filter_cons, IH. rewrite decide_True; [reflexivity |].
  intros H. inversion H.
Qed.

Lemma elem_of_outside (work : list path) (r : list entry) (e : entry) :
  e ∈ outside work r <-> (e_path e ∉ work) /\ (e ∈ r).
Proof. unfold outside. apply (list_elem_of_filter (fun e => e_path e ∉ work)). Qed.

Lemma elem_of_verdict_root (s : strategy) (e : entry) :
  e ∈ verdict_root s -> e ∈ _testcase_root s.
Proof.
  unfold verdict_root. destruct (truthy (_current_feedback s)); [| auto].
  destruct (_current_served s) as [served |]; [| auto].
  unfold purge_unserved. cbn. rewrite list_elem_of_filter. tauto.
Qed.

(** X4: a verdict for a file without an estimate raises [KeyError] after the
    first statement of its branch: an acceptance has cleared the dirty
    flag, a rejection has recorded the snapshot; the generator is closed. *)
Theorem next_missing_estimate (reduce_queue : list path) (file : path)
    (testcase_length : Z) (reduction : content) (s : strategy) :
  _possible_iters_remain s !! file = None ->
  __next__ (AtCandidate reduce_queue file testcase_length reduction) s
  = (missing_state s, Closed, Raise KeyError) /\
  _possible_iters_remain (missing_state s) = _possible_iters_remain s /\
  _testcase_root (missing_state s) = _testcase_root s.
Proof.
  intros Hv. split.
  - cbn [__next__]. unfold run. rewrite resume_missing_eq by exact Hv. reflexivity.
  - unfold missing_state. destruct (truthy (_current_feedback s)); split; reflexivity.
Qed.

Lemma next_candidate_frame (reduce_queue : list path) (file : path)
    (testcase_length : Z) (reduction : content) (s s' : strategy) (g' : gen_state)
    (o : outcome) :
  __next__ (AtCandidate reduce_queue file testcase_length reduction) s = (s', g', o) ->
  (is_Some (_possible_iters_remain s !! file) ->
   outside (file :: reduce_queue) (_testcase_root s')
   = outside (file :: reduce_queue) (verdict_root s)) /\
  (_possible_iters_remain s !! file = None -> _testcase_root s' = _testcase_root s) /\
  _tried s' = verdict_tried s.
Proof.
  intros H. cbn [__next__] in H. unfold run in H.
  destruct (_possible_iters_remain s !! file) as [v |] eqn:Ev.
  - destruct (resume_candidate reduce_queue file testcase_length reduction s)
      as [r s1] eqn:E.
    apply (resume_candidate_frame _ _ _ v) in E; [| exact Ev].
    assert (s' = s1) as -> by (destruct r as [[g1 o1] | e]; injection H as <- <- <-; reflexivity).
    destruct E as [E1 E2]. split; [auto |]. split; [discriminate | exact E2].
  - rewrite resume_missing_eq in H by exact Ev. injection H as <- <- <-.
    split; [intros [? [=]] |]. unfold missing_state, verdict_tried.
    destruct (truthy (_current_feedback s)); split; reflexivity.
Qed.

Lemma next_created_frame (s s' : strategy) (g' : gen_state) (o : outcome) :
  __next__ Created s = (s', g', o) ->
  outside (_files_to_reduce s) (_testcase_root s')
  = outside (_files_to_reduce s) (_testcase_root s) /\
  _tried s' = _tried s.
Proof.
  intros H. cbn [__next__] in H. unfold run in H.
  destruct (start s) as [r s1] eqn:E. rewrite start_eq in E.
  apply (while_reduce_queue_frame (_files_to_reduce s)) in E.
  - assert (s' = s1) as -> by (destruct r as [[g1 o1] | e]; injection H as <- <- <-; reflexivity).
    exact E.
  - intros p Hp. rewrite elem_of_sorted in Hp. exact Hp.
Qed.

Lemma next_final_frame (g : gen_state) (s s' : strategy) (g' : gen_state) (o : outcome) :
  g = AtFinal \/ g = Closed ->
  __next__ g s = (s', g', o) ->
  _testcase_root s' = _testcase_root s /\ _tried s' = _tried s.
Proof.
  intros [-> | ->]; cbn [__next__]; intros H.
  - unfold run in H. rewrite resume_final_eq in H.
    destruct (truthy (_current_feedback s)); injection H as <- <- <-; split; reflexivity.
  - injection H as <- <- <-. split; reflexivity.
Qed.

(** X5: a step of the generator writes only to the file in work and to the
    queued files.  Every entry of the root after the step whose path is
    outside this work set was an entry before; and unless the step
    handles an accepted candidate with served files, the entries outside
    the work set are exactly the ones before, in the same order. *)
Theorem next_touches_only_work_set (g : gen_state) (s s' : strategy) (g' : gen_state)
    (o : outcome) :
  __next__ g s = (s', g', o) ->
  (forall e : entry,
      e ∈ _testcase_root s' -> e_path e ∉ work_set g s -> e ∈ _testcase_root s) /\
  (truthy (_current_feedback s) = false \/ _current_served s = None \/
   (forall reduce_queue file testcase_length reduction,
       g ≠ AtCandidate reduce_queue file testcase_length reduction) ->
   outside (work_set g s) (_testcase_root s')
   = outside (work_set g s) (_testcase_root s)).
Proof.
  intros H. destruct g as [| q f len red | |].
  - apply next_created_frame in H. destruct H as [H _]. cbn [work_set]. split.
    + intros e He Hp.
      assert (He' : e ∈ outside (_files_to_reduce s) (_testcase_root s'))
        by (apply elem_of_outside; auto).
      rewrite H in He'. apply elem_of_outside in He'. tauto.
    + intros _. exact H.
  - apply next_candidate_frame in H. destruct H as (Hsome & Hnone & _).
    cbn [work_set]. destruct (_possible_iters_remain s !! f) as [v |] eqn:Ev.
    + specialize (Hsome ltac:(eauto)). split.
      * intros e He Hp.
        assert (He' : e ∈ outside (f :: q) (_testcase_root s'))
          by (apply elem_of_outside; auto).
        rewrite Hsome in He'. apply elem_of_outside in He'.
        apply elem_of_verdict_root. tauto.
      * intros Hno. rewrite Hsome. unfold verdict_root.
        destruct Hno as [-> | [-> | Hno]].
        -- reflexivity.
        -- destruct (truthy (_current_feedback s)); reflexivity.
        -- destruct (Hno q f len red eq_refl).
    + rewrite (Hnone eq_refl). split; [auto | reflexivity].
  - apply next_final_frame in H; [| auto]. destruct H as [-> _].
    split; [auto | reflexivity].
  - apply next_final_frame in H; [| auto]. destruct H as [-> _].
    split; [auto | reflexivity].
Qed.

(** X6: the set of tried snapshots never loses a member.  A step that
    handles a rejected candidate adds the snapshot of the root as the
    caller judged it, also when the step then raises [KeyError]; every
    other step leaves the set as it is. *)
Theorem next_tried (g : gen_state) (s s' : strategy) (g' : gen_state) (o : outcome) :
  __next__ g s = (s', g', o) ->
  _tried s' =
  match g with
  | AtCandidate _ _ _ _ =>
      if truthy (_current_feedback s) then _tried s
      else {[_calculate_testcase_hash s]} ∪ _tried s
  | _ => _tried s
  end /\
  _tried s ⊆ _tried s'.
Proof.
  intros H. destruct g as [| q f len red | |].
  - apply next_created_frame in H. destruct H as [_ ->]. split; reflexivity.
  - apply next_candidate_frame in H. destruct H as (_ & _ & ->). unfold verdict_tried.
    destruct (truthy (_current_feedback s)); split; try reflexivity. set_solver.
  - apply next_final_frame in H; [| auto]. destruct H as [_ ->]. split; reflexivity.
  - apply next_final_frame in H; [| auto]. destruct H as [_ ->]. split; reflexivity.
Qed.

(** X7: what a step of a generator that is not closed hands to the caller.
    A yield carries the root as it is after the step and leaves the
    generator suspended; the end of the iteration and an exception close
    it, the end with the dirty flag cleared. *)
Theorem next_outcome (g : gen_state) (s s' : strategy) (g' : gen_state) (o : outcome) :
  g ≠ Closed ->
  __next__ g s = (s', g', o) ->
  match o with
  | Yield testcases => testcases = _testcase_root s' /\ g' ≠ Closed /\ g' ≠ Created
  | StopIteration => g' = Closed /\ _testcase_root_dirty s' = false
  | Raise _ => g' = Closed
  end.
Proof.
  intros Hg H. pose proof (next_stops_at g s s' g' o Hg H) as Hst.
  destruct g' as [| q f len red | |]; cbn in Hst.
  - contradiction.
  - subst o. repeat split; discriminate.
  - destruct Hst as [-> _]. repeat split; discriminate.
  - destruct Hst as [[-> Hd] | [e ->]]; auto.
Qed.

(** *** The reducer attribute *)

Lemma begin_file_reducer (file : path) (s s1 : strategy) (testcase_length : Z) :
  begin_file file s = (Ok testcase_length, s1) -> is_Some (_current_reducer s1).
Proof.
  unfold begin_file. unfold mbind, mret, M_bind, M_ret, bind, ret, raise, get, modify,
    lift_option. cbn beta iota.
  destruct (read_bytes (_testcase_root s) file) as [data |]; cbn beta iota; [| discriminate].
  destruct (_calculate_testcase_hash s !! file); cbn beta iota; [| discriminate].
  destruct (seed_tried _ _ _); cbn beta iota; [| discriminate].
  intros [= _ <-]. cbn. eauto.
Qed.

Lemma reducer_end_file_dump_best (file : path) (s : strategy) :
  _current_reducer (end_file file (dump_best file s)) = None.
Proof. reflexivity. Qed.

Lemma for_reduction_reducer (reduce_queue : list path) (file : path)
    (testcase_length : Z) (rest : M (gen_state * outcome)) (s s' : strategy)
    (g' : gen_state) (o : outcome) :
  is_Some (_current_reducer s) ->
  (forall s1 : strategy, _current_reducer s1 = None ->
     rest s1 = (Ok (g', o), s') -> reducer_matches g' s' /\ (g' = Closed -> _current_reducer s' = None)) ->
  for_reduction rest reduce_queue file testcase_length s = (Ok (g', o), s') ->
  reducer_matches g' s' /\ (g' = Closed -> _current_reducer s' = None).
Proof.
  intros [rd Hrd] Hrest. rewrite for_reduction_eq, Hrd.
  destruct (next_reduction rd) as [[red |] rd'].
  - intros [= <- <- <-]. cbn. split; [eauto | discriminate].
  - apply Hrest. apply reducer_end_file_dump_best.
Qed.

Lemma while_reduce_queue_reducer (reduce_queue : list path) :
  forall (s s' : strategy) (g' : gen_state) (o : outcome),
    _current_reducer s = None ->
    while_reduce_queue reduce_queue s = (Ok (g', o), s') ->
    reducer_matches g' s' /\ (g' = Closed -> _current_reducer s' = None).
Proof.
  induction reduce_queue as [| file q IH]; intros s s' g' o Hs.
  - cbn [while_reduce_queue]. rewrite finish_eq.
    destruct (_testcase_root_dirty s); intros [= <- <- <-]; cbn; auto.
  - rewrite while_cons. destruct (begin_file file s) as [[len | e] s1] eqn:Eb; [| discriminate].
    apply begin_file_reducer in Eb. apply for_reduction_reducer; [exact Eb |].
    intros s2 Hs2. apply IH. exact Hs2.
Qed.

(** X8: the reducer attribute is set exactly while a candidate is pending.
    It is [None] after construction, it holds a reducer at every candidate
    the generator yields, and it is [None] again at the final yield and at
    the normal end; [update] keeps this, so that the verdict reaches a
    reducer for every candidate and none for the final yield. *)
Theorem reducer_pending (g : gen_state) (s s' : strategy) (g' : gen_state) (o : outcome) :
  reducer_matches g s ->
  __next__ g s = (s', g', o) ->
  reducer_matches g' s' /\
  (g ≠ Closed -> o = StopIteration -> _current_reducer s' = None) /\
  (forall (success : bool) (served : option (list path)),
      reducer_matches g' (update success served s') /\
      match g' with
      | AtCandidate _ _ _ _ =>
          exists r : reducer,
            _current_reducer s' = Some r /\
            _current_reducer (update success served s') = Some (feedback success r)
      | Created | AtFinal => _current_reducer (update success served s') = None
      | Closed => True
      end).
Proof.
  intros Hm H.
  assert (Hmain : reducer_matches g' s' /\
                  (g ≠ Closed -> o = StopIteration -> _current_reducer s' = None)).
  { pose proof H as H0. destruct g as [| q f len red | |]; cbn [__next__] in H.
    - apply run_inv in H. destruct H as [H | (e & _ & -> & ->)];
        [| split; [exact I | discriminate]].
      rewrite start_eq in H. apply while_reduce_queue_reducer in H; [| exact Hm].
      destruct H as [H1 H2]. split; [exact H1 |]. intros Hg ->.
      apply next_stops_at in H0; [| exact Hg].
      destruct g'; cbn in H0; try discriminate; try contradiction; auto.
    - apply run_inv in H. destruct H as [H | (e & _ & -> & ->)];
        [| split; [exact I | discriminate]].
      cbn in Hm.
      assert (Hwhile : forall (q' : list path) (s1 : strategy),
                 _current_reducer s1 = None ->
                 while_reduce_queue q' s1 = (Ok (g', o), s') ->
                 reducer_matches g' s' /\ (g' = Closed -> _current_reducer s' = None))
        by (intros q' s1; apply while_reduce_queue_reducer).
      assert (Hres : reducer_matches g' s' /\ (g' = Closed -> _current_reducer s' = None)).
      { destruct (_possible_iters_remain s !! f) as [v |] eqn:Ev.
        - rewrite (resume_candidate_eq _ _ _ v) in H by exact Ev.
          destruct (truthy (_current_feedback s)).
          + destruct (_current_served s) as [served |].
            * cbv zeta in H.
              destruct (decide (f ∈ _files_to_reduce _)).
              -- apply for_reduction_reducer in H; [exact H | exact Hm | apply Hwhile].
              -- apply Hwhile in H; [exact H | reflexivity].
            * apply for_reduction_reducer in H; [exact H | exact Hm | apply Hwhile].
          + apply for_reduction_reducer in H; [exact H | exact Hm | apply Hwhile].
        - rewrite resume_missing_eq in H by exact Ev. discriminate. }
      destruct Hres as [H1 H2]. split; [exact H1 |]. intros Hg ->.
      apply next_stops_at in H0; [| exact Hg].
      destruct g'; cbn in H0; try discriminate; try contradiction; auto.
    - apply run_inv in H. destruct H as [H | (e & _ & -> & ->)];
        [| split; [exact I | discriminate]].
      rewrite resume_final_eq in H. destruct (truthy (_current_feedback s)); [| discriminate].
      injection H as <- <- <-. split; [exact I |]. intros _ _. exact Hm.
    - injection H as <- <- <-. split; [exact I |]. intros Hc. contradiction. }
  destruct Hmain as [H1 H2]. split; [exact H1 |]. split; [exact H2 |].
  intros success served. destruct g' as [| q' f' len' red' | |]; cbn in H1 |- *.
  - rewrite H1. split; reflexivity.
  - destruct H1 as [r Hr]. rewrite Hr. cbn. split; [eauto |]. eauto.
  - rewrite H1. split; reflexivity.
  - split; exact I.
Qed.

(** *** Construction and the scanner *)


(** X2: scanning twice is scanning once; after a scan every path with an
    estimate is a scanned file. *)
Theorem rescan_idempotent (s : strategy) :
  rescan_files_to_reduce (rescan_files_to_reduce s) = rescan_files_to_reduce s /\
  forall p : path,
    is_Some (_possible_iters_remain (rescan_files_to_reduce s) !! p) ->
    p ∈ _files_to_reduce (rescan_files_to_reduce s).
Proof.
  assert (Hdom : forall p : path,
             is_Some (_possible_iters_remain (rescan_files_to_reduce s) !! p) ->
             p ∈ _files_to_reduce (rescan_files_to_reduce s)).
  { intros p. rewrite rescan_remain.
    destruct (decide (p ∈ _files_to_reduce (rescan_files_to_reduce s))); [auto |].
    intros [? [=]]. }
  split; [| exact Hdom].
  set (s1 := rescan_files_to_reduce s) in *.
  assert (Hfiles : _files_to_reduce (rescan_files_to_reduce s1) = _files_to_reduce s1)
    by reflexivity.
  assert (Hremain : _possible_iters_remain (rescan_files_to_reduce s1)
                    = _possible_iters_remain s1).
  { apply map_eq. intros p. rewrite rescan_remain, Hfiles.
    destruct (decide (p ∈ _files_to_reduce s1)) as [_ | Hnin]; [reflexivity |].
    destruct (_possible_iters_remain s1 !! p) eqn:E; [| reflexivity].
    destruct Hnin. apply Hdom. rewrite E. eauto. }
  unfold rescan_files_to_reduce at 1. fold (rescan_files_to_reduce s1) in Hremain.
  change (delete_keys _ _) with (_possible_iters_remain (rescan_files_to_reduce s1)).
  rewrite Hremain. unfold s1, rescan_files_to_reduce. reflexivity.
Qed.

Lemma filter_none {A : Type} (P : A -> Prop) `{forall x, Decision (P x)} (l : list A) :
  (forall x : A, x ∈ l -> ¬ P x) -> filter P l = [].
Proof.
  induction l as [| x l IH]; intros Hl; [reflexivity |].
  rewrite filter_cons, decide_False by (apply Hl; left).
  apply IH. intros y Hy. apply Hl. right. exact Hy.
Qed.

(** X3: without files to reduce the generator ends at once, yielding
    nothing; and on a root without reducible files the constructor gives
    an engine without files to reduce, whose length is 0. *)
Theorem no_files_no_candidates :
  (forall s : strategy,
      _files_to_reduce s = [] ->
      __next__ Created s = (set_testcase_root_dirty false s, Closed, StopIteration)) /\
  (forall (possible_iters : Z -> Z) (testcases : root) (all_files : bool),
      (forall e : entry, e ∈ testcases -> reducible all_files e = false) ->
      exists s : strategy,
        __init__ possible_iters testcases all_files = Ok s /\
        _files_to_reduce s = [] /\ __len__ s = 0 /\
        __next__ Created s = (s, Closed, StopIteration)).
Proof.
  assert (Hnext : forall s : strategy,
             _files_to_reduce s = [] ->
             __next__ Created s = (set_testcase_root_dirty false s, Closed, StopIteration)).
  { intros s Hs. cbn [__next__]. unfold run. rewrite start_eq, Hs.
    change (sorted []) with (@nil path). cbn [while_reduce_queue]. rewrite finish_eq.
    reflexivity. }
  split; [exact Hnext |].
  intros pi tc af Hno.
  destruct (init_spec pi tc af) as (d & Hi & Hd).
  assert (Hfiles : _files_to_reduce (scanned tc af) = []).
  { unfold scanned. rewrite rescan_files. cbn [_all_files _testcase_root].
    rewrite (filter_none _ tc); [reflexivity |].
    intros e He. rewrite (Hno e He). discriminate. }
  assert (Hempty : d = ∅).
  { apply map_empty. intros p. rewrite Hd, Hfiles.
    rewrite decide_False; [reflexivity |]. intros H. inversion H. }
  subst d. eexists. split; [exact Hi |]. split; [exact Hfiles |]. split; [reflexivity |].
  rewrite Hnext by exact Hfiles. reflexivity.
Qed.


(** X10: when the candidates of the last file are exhausted right after an
    accepted candidate with served files, the generator ends if the scan
    lists as many files as before and yields the root once more if the
    number of listed files changed. *)
Theorem last_file_after_served (reduce_queue served : list path) (file : path)
    (testcase_length v : Z) (reduction : content) (r r' : reducer) (s : strategy) :
  truthy (_current_feedback s) = true ->
  _current_served s = Some served ->
  _possible_iters_remain s !! file = Some v ->
  _current_reducer s = Some r ->
  next_reduction r = (None, r') ->
  let s1 := accepted_state file testcase_length reduction v s in
  let s2 := served_state served s1 in
  let s' := end_file file (dump_best file (set_current_reducer (Some r') s2)) in
  file ∈ _files_to_reduce s2 ->
  served_queue served reduce_queue s1 = [] ->
  (length (_files_to_reduce s2) = length (_files_to_reduce s) ->
   __next__ (AtCandidate reduce_queue file testcase_length reduction) s
   = (s', Closed, StopIteration)) /\
  (length (_files_to_reduce s2) ≠ length (_files_to_reduce s) ->
   __next__ (AtCandidate reduce_queue file testcase_length reduction) s
   = (s', AtFinal, Yield (_testcase_root s'))) /\
  read_bytes (_testcase_root s') file = Some (testcase r').
Proof.
  intros Hf Hs Hv Hr Hn s1 s2 s' Hin Hq.
  assert (Hstep : __next__ (AtCandidate reduce_queue file testcase_length reduction) s
                  = run finish s').
  { cbn [__next__]. unfold run.
    rewrite (resume_served reduce_queue served file testcase_length v reduction s Hf Hs Hv).
    fold s1 s2. rewrite decide_True by exact Hin. rewrite Hq, for_reduction_eq.
    change (_current_reducer s2) with (_current_reducer s). rewrite Hr, Hn.
    reflexivity. }
  assert (Hd : _testcase_root_dirty s'
               = bool_decide (length (_files_to_reduce s2) ≠ length (_files_to_reduce s))).
  { unfold s'. rewrite dirty_end_file_dump_best. reflexivity. }
  split; [| split].
  - intros Hlen. rewrite Hstep. unfold run. rewrite finish_eq, Hd.
    rewrite bool_decide_eq_false_2 by tauto.
    replace (set_testcase_root_dirty false s') with s'; [reflexivity |].
    destruct s' eqn:E. cbn in Hd. rewrite bool_decide_eq_false_2 in Hd by tauto.
    subst. reflexivity.
  - intros Hlen. rewrite Hstep. unfold run. rewrite finish_eq, Hd.
    rewrite bool_decide_eq_true_2 by exact Hlen. reflexivity.
  - unfold s', end_file, dump_best. cbn.
    apply read_bytes_write_file.
Qed.

(** *** The end of a file *)

Lemma for_reduction_no_estimate (reduce_queue : list path) (file : path)
    (testcase_length : Z) (rest : M (gen_state * outcome)) (p : path) (s s' : strategy)
    (r : result (gen_state * outcome)) :
  (forall s1 s1' r1, rest s1 = (r1, s1') ->
     _possible_iters_remain s1 !! p = None -> _possible_iters_remain s1' !! p = None) ->
  for_reduction rest reduce_queue file testcase_length s = (r, s') ->
  _possible_iters_remain s !! p = None -> _possible_iters_remain s' !! p = None.
Proof.
  intros Hrest. rewrite for_reduction_eq.
  assert (Hend : forall s2 : strategy,
             _possible_iters_remain s2 = _possible_iters_remain s ->
             _possible_iters_remain s !! p = None ->
             _possible_iters_remain (end_file file (dump_best file s2)) !! p = None).
  { intros s2 H2 Hp. rewrite remain_end_file_dump_best, H2.
    destruct (decide (file = p)) as [<- | Hne];
      [apply lookup_delete_eq | rewrite lookup_delete_ne by exact Hne; exact Hp]. }
  destruct (_current_reducer s) as [rd |].
  - destruct (next_reduction rd) as [[red |] rd'].
    + intros [= <- <-]. auto.
    + intros H Hp. apply Hrest in H; [exact H |]. apply Hend; [reflexivity | exact Hp].
  - intros H Hp. apply Hrest in H; [exact H |]. apply Hend; [reflexivity | exact Hp].
Qed.

Lemma while_reduce_queue_no_estimate (reduce_queue : list path) (p : path) :
  forall (s s' : strategy) (r : result (gen_state * outcome)),
    while_reduce_queue reduce_queue s = (r, s') ->
    _possible_iters_remain s !! p = None -> _possible_iters_remain s' !! p = None.
Proof.
  induction reduce_queue as [| file q IH]; intros s s' r.
  - cbn [while_reduce_queue]. rewrite finish_eq.
    destruct (_testcase_root_dirty s); intros [= <- <-]; auto.
  - rewrite while_cons. destruct (begin_file file s) as [[len | e] s1] eqn:Eb;
      destruct (begin_file_frame _ _ _ _ Eb) as [cr ->].
    + intros H Hp. apply (for_reduction_no_estimate _ _ _ _ p) in H;
        [exact H | intros s1 s1' r1; apply IH | exact Hp].
    + intros [= <- <-]. auto.
Qed.

(** X11: when the candidates of a file are exhausted, the best test case of
    its reducer is written to the file and the estimate of the file is
    removed; the steps for the files that follow change neither, as long
    as the file is not queued again. *)
Theorem exhausted_file_is_committed (reduce_queue : list path) (file : path)
    (testcase_length v : Z) (reduction : content) (r r' : reducer)
    (s s' : strategy) (g' : gen_state) (o : outcome) :
  _possible_iters_remain s !! file = Some v ->
  truthy (_current_feedback s) = false \/ _current_served s = None ->
  _current_reducer s = Some r ->
  next_reduction r = (None, r') ->
  file ∉ reduce_queue ->
  __next__ (AtCandidate reduce_queue file testcase_length reduction) s = (s', g', o) ->
  read_bytes (_testcase_root s') file = Some (testcase r') /\
  _possible_iters_remain s' !! file = None /\
  match g' with
  | AtCandidate _ file' _ _ => file' ∈ reduce_queue
  | _ => True
  end.
Proof.
  intros Hv Hno Hr Hn Hq H. cbn [__next__] in H. unfold run in H.
  set (s1 := if truthy (_current_feedback s)
             then accepted_state file testcase_length reduction v s
             else rejected_state file v s).
  assert (Hres : resume_candidate reduce_queue file testcase_length reduction s
                 = while_reduce_queue reduce_queue
                     (end_file file (dump_best file (set_current_reducer (Some r') s1)))).
  { rewrite (resume_candidate_eq _ _ _ v) by exact Hv. unfold s1.
    destruct (truthy (_current_feedback s)).
    - destruct Hno as [[=] | ->]. rewrite for_reduction_eq.
      change (_current_reducer (accepted_state file testcase_length reduction v s))
        with (_current_reducer s). rewrite Hr, Hn. reflexivity.
    - rewrite for_reduction_eq.
      change (_current_reducer (rejected_state file v s)) with (_current_reducer s).
      rewrite Hr, Hn. reflexivity. }
  rewrite Hres in H.
  set (s2 := end_file file (dump_best file (set_current_reducer (Some r') s1))) in *.
  destruct (while_reduce_queue reduce_queue s2) as [res s3] eqn:E.
  assert (s' = s3) as -> by (destruct res as [[g1 o1] | e]; injection H as <- <- <-; reflexivity).
  split; [| split].
  - pose proof (while_reduce_queue_frame reduce_queue reduce_queue s2 s3 res
                  ltac:(auto) E) as [Hout _].
    rewrite <- (read_bytes_outside reduce_queue _ file Hq), Hout,
      (read_bytes_outside reduce_queue _ file Hq).
    unfold s2, end_file, dump_best. cbn. apply read_bytes_write_file.
  - apply (while_reduce_queue_no_estimate _ file) in E; [exact E |].
    unfold s2. rewrite remain_end_file_dump_best. apply lookup_delete_eq.
  - apply while_reduce_queue_reached in E.
    destruct res as [[g1 o1] | e]; injection H as <- <-; [| exact I].
    destruct g1 as [| q' f' len' red' | |]; try exact I.
    cbv beta iota delta [reached] in E. tauto.
Qed.

End Extras.

(** ** Part 9: the further properties on the example states *)

Example example_at_second_reached :
  let '(s2, g2, o2) :=
    __next__ (AtCandidate [["b.html"]] ["a.html"] 2 "a") (update false None example_at_first) in
  (observe s2, g2) = (observe example_at_second, AtCandidate [["b.html"]] ["a.html"] 2 "").
Proof. vm_compute. reflexivity. Qed.

Example xyz_second_iteration_reached :
  let '(s1, g1, o1, _) := drive [(true, None)] (AtCandidate [] ["b.html"] 3 "xyz")
                            (update true None xyz_at_first) in
  let '(s2, g2, o2) := __next__ Created s1 in
  (g1, o1, observe (update true None s2), g2)
  = (Closed, StopIteration, observe xyz_second_iteration, AtCandidate [] ["b.html"] 3 "xyz").
Proof. vm_compute. reflexivity. Qed.

Example check_served_reached :
  match @check__init__ check_only example_root true with
  | Ok c =>
      let '(c1, g1, o1) := check__next__ Created c in
      Some (observe (check_base (check_update true (Some [["a.html"]; ["b.html"]]) c1)), g1)
  | Raised _ => None
  end = Some (observe check_served, AtCandidate [] ["a.html"] 2 "ab").
Proof. vm_compute. reflexivity. Qed.

Lemma next_missing_estimate_witness :
  __next__ (AtCandidate [] ["b.html"] 3 "xyz") xyz_second_iteration
  = (missing_state xyz_second_iteration, Closed, Raise KeyError) /\
  _testcase_root_dirty (missing_state xyz_second_iteration) = false.
Proof.
  destruct (next_missing_estimate [] ["b.html"] 3 "xyz" xyz_second_iteration) as [H _].
  - apply lookup_empty.
  - split; [exact H | reflexivity].
Defined.

Lemma next_touches_only_work_set_witness :
  let s := update false None example_at_first in
  let step := __next__ (AtCandidate [["b.html"]] ["a.html"] 2 "a") s in
  outside [["a.html"]; ["b.html"]] (_testcase_root step.1.1)
  = [Entry ["prefs.js"] true "p"; Entry ["d"] false ""].
Proof.
  intros s step.
  destruct (next_touches_only_work_set (AtCandidate [["b.html"]] ["a.html"] 2 "a") s
              step.1.1 step.1.2 step.2) as [_ H].
  - unfold step. destruct (__next__ _ _) as [[s' g'] o]. reflexivity.
  - etransitivity; [apply H; left; reflexivity |]. vm_compute. reflexivity.
Defined.

Lemma next_tried_witness :
  let s := update false None example_at_first in
  let step := __next__ (AtCandidate [["b.html"]] ["a.html"] 2 "a") s in
  _tried step.1.1 = {[_calculate_testcase_hash s]} ∪ _tried s.
Proof.
  intros s step.
  destruct (next_tried (AtCandidate [["b.html"]] ["a.html"] 2 "a") s
              step.1.1 step.1.2 step.2) as [H _].
  - unfold step. destruct (__next__ _ _) as [[s' g'] o]. reflexivity.
  - exact H.
Defined.

Lemma next_outcome_witness :
  let s := update false None example_at_first in
  let step := __next__ (AtCandidate [["b.html"]] ["a.html"] 2 "a") s in
  match step.2 with
  | Yield testcases =>
      testcases = _testcase_root step.1.1 /\ step.1.2 ≠ Closed /\ step.1.2 ≠ Created
  | StopIteration => step.1.2 = Closed /\ _testcase_root_dirty step.1.1 = false
  | Raise _ => step.1.2 = Closed
  end.
Proof.
  intros s step.
  apply (next_outcome (AtCandidate [["b.html"]] ["a.html"] 2 "a") s).
  - discriminate.
  - unfold step. destruct (__next__ _ _) as [[s' g'] o]. reflexivity.
Defined.

Lemma reducer_pending_witness :
  let s := update false None example_at_first in
  let step := __next__ (AtCandidate [["b.html"]] ["a.html"] 2 "a") s in
  reducer_matches step.1.2 step.1.1.
Proof.
  intros s step.
  destruct (reducer_pending (AtCandidate [["b.html"]] ["a.html"] 2 "a") s
              step.1.1 step.1.2 step.2) as [H _].
  - eexists. reflexivity.
  - unfold step. destruct (__next__ _ _) as [[s' g'] o]. reflexivity.
  - exact H.
Defined.

Lemma last_file_after_served_witness :
  let s1 := accepted_state ["a.html"] 2 "ab" 4 check_served in
  let s2 := served_state [["a.html"]; ["b.html"]] s1 in
  let s' := end_file ["a.html"]
              (dump_best ["a.html"]
                 (set_current_reducer
                    (Some (Scripted "ab" None [] : @reducer check_only)) s2)) in
  _files_to_reduce check_served = [["a.html"]] /\
  _files_to_reduce s2 = [["a.html"]; ["b.html"]] /\
  __next__ (AtCandidate [] ["a.html"] 2 "ab") check_served
  = (s', AtFinal, Yield (_testcase_root s')).
Proof.
  intros s1 s2 s'.
  assert (Hfiles : _files_to_reduce s2 = [["a.html"]; ["b.html"]])
    by (vm_compute; reflexivity).
  split; [reflexivity |]. split; [exact Hfiles |].
  destruct (last_file_after_served [] [["a.html"]; ["b.html"]] ["a.html"] 2 4 "ab"
              (Scripted "ab" None [] : @reducer check_only)
              (Scripted "ab" None [] : @reducer check_only) check_served)
    as (_ & H & _).
  - reflexivity.
  - reflexivity.
  - apply lookup_insert_eq.
  - reflexivity.
  - reflexivity.
  - fold s1 s2. rewrite Hfiles. left.
  - vm_compute. reflexivity.
  - apply H. fold s1 s2. rewrite Hfiles. discriminate.
Defined.

Lemma exhausted_file_is_committed_witness :
  let step := __next__ (AtCandidate [["b.html"]] ["a.html"] 2 "") example_at_second in
  read_bytes (_testcase_root step.1.1) ["a.html"] = Some "ab" /\
  _possible_iters_remain step.1.1 !! ["a.html"] = None.
Proof.
  intros step.
  destruct (exhausted_file_is_committed [["b.html"]] ["a.html"] 2 3 ""
              (Scripted "ab" (Some "") [] : @reducer prefix_minimizer)
              (Scripted "ab" (Some "") [] : @reducer prefix_minimizer)
              example_at_second step.1.1 step.1.2 step.2) as (H1 & H2 & _).
  - apply lookup_insert_eq.
  - left. reflexivity.
  - reflexivity.
  - reflexivity.
  - intros H. apply list_elem_of_singleton in H. discriminate.
  - unfold step. destruct (__next__ _ _) as [[s' g'] o]. reflexivity.
  - split; [exact H1 | exact H2].
Defined.
